(** * PingPong operator and server: a shallow embedding

    The development follows the two programs of the repository:

    - [pingpong-operator/app/operator.py]: the manifest builders
      ([configmap_manifest], [service_manifest], [statefulset_manifest]) and
      the three kopf handlers ([create_fn], [update_fn], [delete_fn]);
    - [pingpong-server/server/main.py]: one pass of [ping_loop].

    The Kubernetes API server and the HTTP peers are outside the repository.
    They are modelled as an explicit state: a keyed object store per kind, a
    schedule of injected failures, and a record of every request issued. *)

From Stdlib Require Import ZArith Ascii.
From stdpp Require Import base option list gmap strings pretty fin_maps.

Local Open Scope string_scope.
Local Open Scope Z_scope.
Local Open Scope list_scope.

(** ** Python values and text *)

(** The line feed written [\n] in the Python literals. *)
Definition LF : string := String (Ascii.ascii_of_nat 10) "".

(** Values placed in the hand-built dictionaries of [update_fn] and read from
    the YAML configuration of the server. *)
#[warnings="-register-all"]
Inductive pyval :=
  | PyNone
  | PyInt (z : Z)
  | PyStr (s : string)
  | PyList (l : list pyval)
  | PyDict (d : list (string * pyval)).

(** [d.get(k)] on a dictionary kept as an association list. *)
Fixpoint assoc_get (k : string) (d : list (string * pyval)) : option pyval :=
  match d with
  | [] => None
  | (k', v) :: d' => if decide (k' = k) then Some v else assoc_get k d'
  end.

Definition py_get (k : string) (v : pyval) : option pyval :=
  match v with
  | PyDict d => assoc_get k d
  | _ => None
  end.

(** [v[k1][k2]...], when every key on the way is there. *)
Fixpoint py_path (ks : list string) (v : pyval) : option pyval :=
  match ks with
  | [] => Some v
  | k :: ks' =>
      match py_get k v with
      | Some v' => py_path ks' v'
      | None => None
      end
  end.

(** An optional integer or string as a Python value: an absent one is [None]. *)
Definition of_opt_int (o : option Z) : pyval :=
  match o with Some z => PyInt z | None => PyNone end.

Definition of_opt_str (o : option string) : pyval :=
  match o with Some s => PyStr s | None => PyNone end.

(** [str(v)] as used by f-string interpolation [{v}], on the values that are
    interpolated: integers print in decimal, [None] prints as the word. *)
Definition str_int (z : Z) : string := pretty z.

Definition str_opt_int (o : option Z) : string :=
  match o with Some z => str_int z | None => "None" end.

(** [range(lo, hi)] on integers. *)
Definition py_range (lo hi : Z) : list Z := seqZ lo (hi - lo).

(** ** A state-and-exception monad

    Handlers thread the outside world through every call and may raise.  A
    raise keeps the state reached so far: requests already sent stay sent. *)

Inductive result (E A : Type) :=
  | Ok (a : A)
  | Raise (e : E).
Arguments Ok {E A} a.
Arguments Raise {E A} e.

Definition M (S E : Type) : Type → Type := λ A, S → result E A * S.

Definition ret {S E A} (a : A) : M S E A := λ s, (Ok a, s).

Definition bind {S E A B} (m : M S E A) (k : A → M S E B) : M S E B :=
  λ s, match m s with
       | (Ok a, s') => k a s'
       | (Raise e, s') => (Raise e, s')
       end.

#[global] Instance M_ret {S E} : MRet (M S E) := λ A, ret.
#[global] Instance M_bind {S E} : MBind (M S E) := λ A B k m, bind m k.

Definition raise {S E A} (e : E) : M S E A := λ s, (Raise e, s).

(** [try: m / except E as e: h e] *)
Definition try_except {S E A} (m : M S E A) (h : E → M S E A) : M S E A :=
  λ s, match m s with
       | (Ok a, s') => (Ok a, s')
       | (Raise e, s') => h e s'
       end.

Definition modify {S E} (f : S → S) : M S E unit := λ s, (Ok tt, f s).

(** [for x in l: body x] *)
Fixpoint for_each {S E A} (l : list A) (body : A → M S E unit) : M S E unit :=
  match l with
  | [] => ret tt
  | x :: l' => body x;; for_each l' body
  end.

(** ** Log records *)

Inductive log_level := INFO | WARNING | ERROR.

(** [update_fn] logs its patch outcomes through the [logging] module, the other
    handlers through the [logger] kopf hands them; the server through
    [app.logger]. *)
Inductive log_sink := KopfLogger | RootLogging | AppLogger.

Record log_record := LogRecord {
  sink : log_sink;
  level : log_level;
  message : string;
}.

(** ** The Kubernetes client's model classes

    One record per class the operator instantiates, with the keyword
    arguments it passes as fields.  A field the API may clear or that the
    operator leaves unset is optional. *)

Module V1ObjectMeta.
Record t := Build {
  name : option string;
  namespace : option string;
  labels : gmap string string;
}.
End V1ObjectMeta.

Module V1ConfigMap.
Record t := Build {
  metadata : V1ObjectMeta.t;
  data : gmap string string;
}.
End V1ConfigMap.

Module V1ServicePort.
Record t := Build {
  port : Z;
  target_port : Z;
  protocol : string;
}.
End V1ServicePort.

Module V1ServiceSpec.
Record t := Build {
  cluster_ip : string;
  selector : gmap string string;
  ports : list V1ServicePort.t;
}.
End V1ServiceSpec.

Module V1Service.
Record t := Build {
  metadata : V1ObjectMeta.t;
  spec : V1ServiceSpec.t;
}.
End V1Service.

Module V1EnvVar.
Record t := Build {
  name : string;
  value : string;
}.
End V1EnvVar.

Module V1ContainerPort.
Record t := Build {
  container_port : Z;
}.
End V1ContainerPort.

Module V1VolumeMount.
Record t := Build {
  name : string;
  mount_path : string;
  read_only : bool;
}.
End V1VolumeMount.

Module V1ResourceRequirements.
Record t := Build {
  requests : gmap string string;
  limits : gmap string string;
}.
End V1ResourceRequirements.

Module V1Container.
Record t := Build {
  name : string;
  image : option string;
  env : list V1EnvVar.t;
  ports : list V1ContainerPort.t;
  volume_mounts : list V1VolumeMount.t;
  resources : V1ResourceRequirements.t;
}.
End V1Container.

Module V1KeyToPath.
Record t := Build {
  key : string;
  path : string;
}.
End V1KeyToPath.

Module V1ConfigMapVolumeSource.
Record t := Build {
  name : string;
  items : list V1KeyToPath.t;
}.
End V1ConfigMapVolumeSource.

Module V1Volume.
Record t := Build {
  name : string;
  config_map : V1ConfigMapVolumeSource.t;
}.
End V1Volume.

Module V1PodSpec.
Record t := Build {
  containers : list V1Container.t;
  volumes : list V1Volume.t;
}.
End V1PodSpec.

Module V1PodTemplateSpec.
Record t := Build {
  metadata : V1ObjectMeta.t;
  spec : V1PodSpec.t;
}.
End V1PodTemplateSpec.

Module V1LabelSelector.
Record t := Build {
  match_labels : gmap string string;
}.
End V1LabelSelector.

Module V1StatefulSetSpec.
Record t := Build {
  service_name : string;
  replicas : option Z;
  selector : V1LabelSelector.t;
  template : V1PodTemplateSpec.t;
}.
End V1StatefulSetSpec.

Module V1StatefulSet.
Record t := Build {
  metadata : V1ObjectMeta.t;
  spec : V1StatefulSetSpec.t;
}.
End V1StatefulSet.

(** [ApiException]: the HTTP status it carries and its rendering [str(e)], the
    two things the handlers look at. *)
Module ApiException.
Record t := Build {
  status : Z;
  str : string;
}.
End ApiException.

(** ** The cluster API

    The API server is a store of objects keyed by kind, namespace and name.
    Only what the operator relies on is modelled: a create of an existing key
    answers 409, a patch or delete of a missing key answers 404, a patch
    overwrites the fields it names (a null clears the field) and leaves the
    others.  Admission checks, defaulting and any other reason the server may
    have to refuse a request are covered by the schedule of injected failures
    below rather than spelt out. *)

Record Cluster := MkCluster {
  services : gmap (string * string) V1Service.t;
  config_maps : gmap (string * string) V1ConfigMap.t;
  stateful_sets : gmap (string * string) V1StatefulSet.t;
}.

(** The client methods the operator calls, with their arguments. *)
Inductive api_call :=
  | create_namespaced_service (namespace : string) (body : V1Service.t)
  | create_namespaced_config_map (namespace : string) (body : V1ConfigMap.t)
  | create_namespaced_stateful_set (namespace : string) (body : V1StatefulSet.t)
  | patch_namespaced_stateful_set (name namespace : string) (body : pyval)
  | patch_namespaced_config_map (name namespace : string) (body : pyval)
  | delete_namespaced_service (name namespace : string)
  | delete_namespaced_stateful_set (name namespace : string)
  | delete_namespaced_config_map (name namespace : string).

Inductive outcome :=
  | Returned
  | Raised (e : ApiException.t).

Definition api_error (status : Z) (reason : string) : ApiException.t :=
  ApiException.Build status
    ("(" +:+ str_int status +:+ ")" +:+ LF +:+ "Reason: " +:+ reason +:+ LF).

Definition store_create {V} (namespace : string) (name : option string) (v : V)
    (m : gmap (string * string) V) : result ApiException.t (gmap (string * string) V) :=
  match name with
  | None => Raise (api_error 422 "Unprocessable Entity")
  | Some n =>
      match m !! (namespace, n) with
      | Some _ => Raise (api_error 409 "Conflict")
      | None => Ok (<[(namespace, n) := v]> m)
      end
  end.

Definition store_patch {V} (namespace name : string) (f : V → option V)
    (m : gmap (string * string) V) : result ApiException.t (gmap (string * string) V) :=
  match m !! (namespace, name) with
  | None => Raise (api_error 404 "Not Found")
  | Some v =>
      match f v with
      | Some v' => Ok (<[(namespace, name) := v']> m)
      | None => Raise (api_error 422 "Unprocessable Entity")
      end
  end.

Definition store_delete {V} (namespace name : string)
    (m : gmap (string * string) V) : result ApiException.t (gmap (string * string) V) :=
  match m !! (namespace, name) with
  | None => Raise (api_error 404 "Not Found")
  | Some _ => Ok (delete (namespace, name) m)
  end.

(** Merging the ["data"] entries of a patch into a ConfigMap. *)
Fixpoint merge_data (d : list (string * pyval)) (m : gmap string string)
    : option (gmap string string) :=
  match d with
  | [] => Some m
  | (k, PyStr v) :: d' => merge_data d' (<[k := v]> m)
  | (k, PyNone) :: d' => merge_data d' (delete k m)
  | _ => None
  end.

Definition merge_config_map (body : pyval) (o : V1ConfigMap.t) : option V1ConfigMap.t :=
  match py_get "data" body with
  | None => Some o
  | Some (PyDict d) =>
      data' ← merge_data d (V1ConfigMap.data o);
      Some (V1ConfigMap.Build (V1ConfigMap.metadata o) data')
  | Some PyNone => Some (V1ConfigMap.Build (V1ConfigMap.metadata o) ∅)
  | Some _ => None
  end.

(** Merging a patch into a StatefulSet: the replica count, and the containers
    of the pod template, which merge on their name. *)
Definition merge_image (p : pyval) (c : V1Container.t) : option V1Container.t :=
  let set_image i :=
    V1Container.Build (V1Container.name c) i (V1Container.env c)
      (V1Container.ports c) (V1Container.volume_mounts c) (V1Container.resources c) in
  match py_get "image" p with
  | None => Some c
  | Some (PyStr s) => Some (set_image (Some s))
  | Some PyNone => Some (set_image None)
  | Some _ => None
  end.

Definition merge_container (cs : list V1Container.t) (p : pyval)
    : option (list V1Container.t) :=
  match py_get "name" p with
  | Some (PyStr n) =>
      if existsb (λ c, bool_decide (V1Container.name c = n)) cs
      then mapM (λ c, if decide (V1Container.name c = n) then merge_image p c else Some c) cs
      else
        c ← merge_image p (V1Container.Build n None [] [] []
                             (V1ResourceRequirements.Build ∅ ∅));
        Some (cs ++ [c])
  | _ => None
  end.

Fixpoint merge_containers (ps : list pyval) (cs : list V1Container.t)
    : option (list V1Container.t) :=
  match ps with
  | [] => Some cs
  | p :: ps' => cs' ← merge_container cs p; merge_containers ps' cs'
  end.

Definition merge_replicas (psp : pyval) (old : option Z) : option (option Z) :=
  match py_get "replicas" psp with
  | None => Some old
  | Some (PyInt n) => Some (Some n)
  | Some PyNone => Some None
  | Some _ => None
  end.

Definition merge_template (psp : pyval) (cs : list V1Container.t)
    : option (list V1Container.t) :=
  match py_path ["template"; "spec"; "containers"] psp with
  | None => Some cs
  | Some (PyList ps) => merge_containers ps cs
  | Some _ => None
  end.

Definition merge_stateful_set (body : pyval) (o : V1StatefulSet.t)
    : option V1StatefulSet.t :=
  let sp := V1StatefulSet.spec o in
  let tpl := V1StatefulSetSpec.template sp in
  let pod := V1PodTemplateSpec.spec tpl in
  match py_get "spec" body with
  | None => Some o
  | Some psp =>
      replicas' ← merge_replicas psp (V1StatefulSetSpec.replicas sp);
      containers' ← merge_template psp (V1PodSpec.containers pod);
      Some (V1StatefulSet.Build (V1StatefulSet.metadata o)
              (V1StatefulSetSpec.Build (V1StatefulSetSpec.service_name sp) replicas'
                 (V1StatefulSetSpec.selector sp)
                 (V1PodTemplateSpec.Build (V1PodTemplateSpec.metadata tpl)
                    (V1PodSpec.Build containers' (V1PodSpec.volumes pod)))))
  end.

(** What a request does to the store when the server serves it. *)
Definition serve (c : api_call) (cl : Cluster) : result ApiException.t Cluster :=
  match c with
  | create_namespaced_service ns body =>
      match store_create ns (V1ObjectMeta.name (V1Service.metadata body)) body (services cl) with
      | Ok m => Ok (MkCluster m (config_maps cl) (stateful_sets cl))
      | Raise e => Raise e
      end
  | create_namespaced_config_map ns body =>
      match store_create ns (V1ObjectMeta.name (V1ConfigMap.metadata body)) body (config_maps cl) with
      | Ok m => Ok (MkCluster (services cl) m (stateful_sets cl))
      | Raise e => Raise e
      end
  | create_namespaced_stateful_set ns body =>
      match store_create ns (V1ObjectMeta.name (V1StatefulSet.metadata body)) body (stateful_sets cl) with
      | Ok m => Ok (MkCluster (services cl) (config_maps cl) m)
      | Raise e => Raise e
      end
  | patch_namespaced_stateful_set name ns body =>
      match store_patch ns name (merge_stateful_set body) (stateful_sets cl) with
      | Ok m => Ok (MkCluster (services cl) (config_maps cl) m)
      | Raise e => Raise e
      end
  | patch_namespaced_config_map name ns body =>
      match store_patch ns name (merge_config_map body) (config_maps cl) with
      | Ok m => Ok (MkCluster (services cl) m (stateful_sets cl))
      | Raise e => Raise e
      end
  | delete_namespaced_service name ns =>
      match store_delete ns name (services cl) with
      | Ok m => Ok (MkCluster m (config_maps cl) (stateful_sets cl))
      | Raise e => Raise e
      end
  | delete_namespaced_stateful_set name ns =>
      match store_delete ns name (stateful_sets cl) with
      | Ok m => Ok (MkCluster (services cl) (config_maps cl) m)
      | Raise e => Raise e
      end
  | delete_namespaced_config_map name ns =>
      match store_delete ns name (config_maps cl) with
      | Ok m => Ok (MkCluster (services cl) m (stateful_sets cl))
      | Raise e => Raise e
      end
  end.

(** The world a handler runs in: the cluster, the failures still to be
    injected (one entry is consumed per request: [Some e] makes the request
    raise [e] and leaves the store alone, [None] lets the server serve it; an
    exhausted schedule injects nothing), the requests sent so far with their
    outcomes, and the log. *)
Record World := MkWorld {
  cluster : Cluster;
  faults : list (option ApiException.t);
  requests : list (api_call * outcome);
  log : list log_record;
}.

Definition api (c : api_call) : M World ApiException.t unit :=
  λ w,
    let inject := match faults w with Some e :: _ => Some e | _ => None end in
    let fs := tail (faults w) in
    match inject with
    | Some e =>
        (Raise e, MkWorld (cluster w) fs (requests w ++ [(c, Raised e)]) (log w))
    | None =>
        match serve c (cluster w) with
        | Ok cl' => (Ok tt, MkWorld cl' fs (requests w ++ [(c, Returned)]) (log w))
        | Raise e =>
            (Raise e, MkWorld (cluster w) fs (requests w ++ [(c, Raised e)]) (log w))
        end
    end.

Definition emit (k : log_sink) (l : log_level) (msg : string)
    : M World ApiException.t unit :=
  modify (λ w, MkWorld (cluster w) (faults w) (requests w)
                 (log w ++ [LogRecord k l msg])).

(** ** The custom resource

    The [spec] mapping kopf hands to the handlers.  In the data model of the
    resource [replicas] and [timer] are integers and [image] is a string, so
    [int] is the identity on the first two; each field may be absent, which is
    what [spec.get] observes. *)
Module Spec.
Record t := Build {
  replicas : option Z;
  timer : option Z;
  image : option string;
}.
End Spec.

(** An entry [(op, field, old, new)] of the [diff] kopf passes to the update
    handler.  The handler only interpolates the last three into a log line, so
    they are kept as their renderings. *)
Definition change : Type := string * string * string * string.

(** ** The operator *)

Module Operator.

(** *** Module constants *)

Definition CONTAINER_PORT : Z := 80.
Definition CONFIG_FILENAME : string := "config.yaml".
Definition MOUNT_PATH : string := "/var/server".
Definition CONFIG_KEY : string := "config.yaml".

(** *** Manifest builders *)

Definition configmap_manifest (name namespace : string) (replicas timer : Z)
    (labels : gmap string string) : V1ConfigMap.t :=
  let data := "replicas: " +:+ str_int replicas +:+ LF +:+
              "timer: " +:+ str_int timer +:+ LF in
  V1ConfigMap.Build
    (V1ObjectMeta.Build (Some name) (Some namespace) labels)
    {[ CONFIG_KEY := data ]}.

Definition service_manifest (name namespace : string)
    (labels : gmap string string) : V1Service.t :=
  let spec := V1ServiceSpec.Build
    "None"
    labels
    [V1ServicePort.Build CONTAINER_PORT CONTAINER_PORT "TCP"] in
  V1Service.Build
    (V1ObjectMeta.Build (Some name) (Some namespace) labels)
    spec.

Definition statefulset_manifest (name service_name configmap_name namespace : string)
    (labels : gmap string string) (replicas : Z) (image : string)
    : V1StatefulSet.t :=
  let container := V1Container.Build
    "main"
    (Some image)
    [V1EnvVar.Build "HEADLESS_SERVICE" service_name]
    [V1ContainerPort.Build CONTAINER_PORT]
    [V1VolumeMount.Build "config-volume" MOUNT_PATH true]
    (V1ResourceRequirements.Build
       {[ "cpu" := "100m"; "memory" := "64Mi" ]}
       {[ "cpu" := "100m"; "memory" := "64Mi" ]}) in
  let volumes := [
    V1Volume.Build "config-volume"
      (V1ConfigMapVolumeSource.Build configmap_name
         [V1KeyToPath.Build CONFIG_KEY CONFIG_KEY])
  ] in
  let pod_template := V1PodTemplateSpec.Build
    (V1ObjectMeta.Build None None labels)
    (V1PodSpec.Build [container] volumes) in
  let spec := V1StatefulSetSpec.Build
    service_name
    (Some replicas)
    (V1LabelSelector.Build labels)
    pod_template in
  V1StatefulSet.Build
    (V1ObjectMeta.Build (Some name) (Some namespace) labels)
    spec.

(** *** Handlers *)

Definition create_fn (spec : Spec.t) (name namespace : string)
    : M World ApiException.t (gmap string string) :=
  let replicas := default 1 (Spec.replicas spec) in
  let timer := default 30 (Spec.timer spec) in
  let image := default "6y6en/ping-pong:latest" (Spec.image spec) in
  (* resources will be named based on CR name *)
  let svc_name := name +:+ "-svc" in
  let sts_name := name +:+ "-sts" in
  let cm_name := name +:+ "-cm" in
  let labels : gmap string string := {[ "app" := name ]} in
  emit KopfLogger INFO
    ("Creating PingPong resources: svc=" +:+ svc_name +:+ ", sts=" +:+ sts_name +:+
     ", cm=" +:+ cm_name +:+ ", replicas=" +:+ str_int replicas +:+
     ", timer=" +:+ str_int timer);;
  (* 1) create headless service *)
  let svc_manifest := service_manifest svc_name namespace labels in
  try_except
    (api (create_namespaced_service namespace svc_manifest);;
     emit KopfLogger INFO ("Service " +:+ svc_name +:+ " created"))
    (λ e,
       if decide (ApiException.status e = 409)
       then emit KopfLogger INFO ("Service " +:+ svc_name +:+ " already exists")
       else raise e);;
  (* 2) create configmap *)
  let cm_manifest := configmap_manifest cm_name namespace replicas timer labels in
  try_except
    (api (create_namespaced_config_map namespace cm_manifest);;
     emit KopfLogger INFO ("ConfigMap " +:+ cm_name +:+ " created"))
    (λ e,
       if decide (ApiException.status e = 409)
       then emit KopfLogger INFO ("ConfigMap " +:+ cm_name +:+ " already exists")
       else raise e);;
  (* 3) create statefulset *)
  let sts_manifest :=
    statefulset_manifest sts_name svc_name cm_name namespace labels replicas image in
  try_except
    (api (create_namespaced_stateful_set namespace sts_manifest);;
     emit KopfLogger INFO ("StatefulSet " +:+ sts_name +:+ " created"))
    (λ e,
       if decide (ApiException.status e = 409)
       then emit KopfLogger INFO ("StatefulSet " +:+ sts_name +:+ " already exists")
       else raise e);;
  (* store names for later handlers *)
  mret ({[ "svc_name" := svc_name; "sts_name" := sts_name; "cm_name" := cm_name ]}
          : gmap string string).

Definition update_fn (spec : Spec.t) (name namespace : string) (diff : list change)
    : M World ApiException.t unit :=
  let image := Spec.image spec in
  let replicas := Spec.replicas spec in
  let timer := Spec.timer spec in
  let sts_name := name +:+ "-sts" in
  let cm_name := name +:+ "-cm" in
  for_each diff (λ change,
    let '(_, field, old, new) := change in
    emit KopfLogger INFO
      ("Detected change in " +:+ field +:+ ": " +:+ old +:+ " -> " +:+ new));;
  let ss_body :=
    PyDict [("spec", PyDict [
      ("replicas", of_opt_int replicas);
      ("template", PyDict [
        ("spec", PyDict [
          ("containers", PyList [
            PyDict [("name", PyStr "main"); ("image", of_opt_str image)]
          ])
        ])
      ])
    ])] in
  try_except
    (api (patch_namespaced_stateful_set sts_name namespace ss_body);;
     emit RootLogging INFO ("Updated StatefulSet " +:+ sts_name))
    (λ e, emit RootLogging ERROR ("Failed to update StatefulSet: " +:+ ApiException.str e));;
  let cm_data := "replicas: " +:+ str_opt_int replicas +:+ LF +:+
                 "timer: " +:+ str_opt_int timer +:+ LF in
  let cm_body := PyDict [("data", PyDict [(CONFIG_KEY, PyStr cm_data)])] in
  try_except
    (api (patch_namespaced_config_map cm_name namespace cm_body);;
     emit RootLogging INFO ("Updated ConfigMap " +:+ cm_name))
    (λ e, emit RootLogging ERROR ("Failed to update ConfigMap: " +:+ ApiException.str e)).

Definition delete_fn (spec : Spec.t) (name namespace : string)
    : M World ApiException.t unit :=
  (* Here we attempt to delete them; ignore NotFound errors. *)
  let svc_name := name +:+ "-svc" in
  let sts_name := name +:+ "-sts" in
  let cm_name := name +:+ "-cm" in
  for_each [
    (delete_namespaced_service, svc_name);
    (delete_namespaced_stateful_set, sts_name);
    (delete_namespaced_config_map, cm_name)
  ] (λ '(fn, n),
    try_except
      (api (fn n namespace);;
       emit KopfLogger INFO ("Deleted " +:+ n))
      (λ e,
         if decide (ApiException.status e = 404)
         then emit KopfLogger INFO (n +:+ " already deleted")
         else emit KopfLogger ERROR
                ("Failed to delete " +:+ n +:+ ": " +:+ ApiException.str e))).

End Operator.

(** ** The server *)

Module Server.

(** What the body of [ping_loop] can raise by itself: [config.get] on a value
    that is no mapping, [range] on a value that is no integer. *)
Inductive error :=
  | AttributeError
  | TypeError.

(** The module's globals, [config], [pod_prefix], [pod_number] and
    [service_name], and its surroundings: what reading and parsing
    [CONFIG_PATH] currently yields (a value, or the rendering of the exception
    raised), what each URL answers to a GET (the response text, or the
    rendering of the exception raised), the GETs sent so far, and the log. *)
Record State := MkState {
  config : pyval;
  pod_prefix : string;
  pod_number : Z;
  service_name : string;
  config_file : pyval + string;
  network : string → string + string;
  sent : list string;
  log : list log_record;
}.

Definition set_config (c : pyval) (s : State) : State :=
  MkState c (pod_prefix s) (pod_number s) (service_name s) (config_file s)
    (network s) (sent s) (log s).

Definition app_logger (l : log_level) (msg : string) : M State error unit :=
  modify (λ s, MkState (config s) (pod_prefix s) (pod_number s) (service_name s)
                 (config_file s) (network s) (sent s) (log s ++ [LogRecord AppLogger l msg])).

(** [requests.get(url, timeout=1)]: the response text, or the rendering of the
    exception, which the caller catches whatever it is. *)
Definition requests_get (url : string) : M State error (string + string) :=
  λ s, (Ok (network s url),
        MkState (config s) (pod_prefix s) (pod_number s) (service_name s)
          (config_file s) (network s) (sent s ++ [url]) (log s)).

(** The truth value of a Python value, as [or] tests it. *)
Definition truthy (v : pyval) : bool :=
  match v with
  | PyNone => false
  | PyInt z => negb (z =? 0)
  | PyStr s => negb (bool_decide (s = ""))
  | PyList l => negb (bool_decide (l = []))
  | PyDict d => negb (bool_decide (d = []))
  end.

Section Rendering.

(** [str] of a configuration value, used only in a log line. *)
Variable py_str : pyval → string.

Definition load_config : M State error unit :=
  λ s,
    match config_file s with
    | inl v =>
        let config' := if truthy v then v else config s in
        app_logger INFO ("Config loaded: " +:+ py_str config') (set_config config' s)
    | inr e =>
        app_logger ERROR ("Failed to load config: " +:+ e) s
    end.

(** [config.get(k)] *)
Definition config_get (k : string) : M State error pyval :=
  λ s,
    match config s with
    | PyDict d => (Ok (default PyNone (assoc_get k d)), s)
    | _ => (Raise AttributeError, s)
    end.

(** [range(0, v)] *)
Definition range0 (v : pyval) : M State error (list Z) :=
  match v with
  | PyInt n => mret (py_range 0 n)
  | _ => raise TypeError
  end.

Definition ping_url (pod_prefix : string) (i : Z) (service_name : string) : string :=
  "http://" +:+ pod_prefix +:+ "-" +:+ str_int i +:+
  (if bool_decide (service_name = "") then "" else "." +:+ service_name) +:+
  "/ping".

(** The body of the [for] loop of [ping_loop], for the ordinal [i]. *)
Definition ping_one (i : Z) : M State error unit :=
  λ s,
    if decide (i = pod_number s) then
      (* same pod: continue *)
      (Ok tt, s)
    else
      let url := ping_url (pod_prefix s) i (service_name s) in
      (r ← requests_get url;
       match r with
       | inl text =>
           app_logger INFO ("Ping from server " +:+ str_int (pod_number s) +:+
                            " to server " +:+ str_int i +:+ " -> " +:+ text)
       | inr e =>
           app_logger WARNING ("Ping " +:+ url +:+ " failed: " +:+ e)
       end) s.

(** One pass of the [while] loop of [ping_loop], up to the wait on the stop
    event that separates two passes. *)
Definition ping_pass : M State error unit :=
  load_config;;
  replicas ← config_get "replicas";
  timer ← config_get "timer";
  targets ← range0 replicas;
  for_each targets ping_one.

(** [GET /reload] *)
Definition reload_config : M State error string :=
  load_config;; mret "reloaded".

End Rendering.

(** *** The rest of the HTTP surface *)


(** [GET /] *)
Definition index : M State error string := mret "ok".

(** [GET /ping] *)
Definition ping : M State error string := mret ("pong" +:+ LF).

(** [GET /config]: the global [config], as it is now. *)
Definition get_config : M State error pyval := λ s, (Ok (config s), s).

(** *** Start-up *)

(** What [define_cluster] can raise: [os.environ[...]] on a missing variable,
    [...[1]] on a list of one element, [int] on a string that is no integer. *)
Inductive startup_error :=
  | KeyError (key : string)
  | IndexError
  | ValueError.

(** [s.rsplit(sep, 1)] for a separator of one character: the text before
    and after the last [sep], if there is one. *)
Fixpoint rsplit1 (sep : Ascii.ascii) (s : string) : option (string * string) :=
  match s with
  | "" => None
  | String a s' =>
      match rsplit1 sep s' with
      | Some (p, q) => Some (String a p, q)
      | None => if decide (a = sep) then Some ("", s') else None
      end
  end.

Definition rsplit (sep : Ascii.ascii) (s : string) : list string :=
  match rsplit1 sep s with
  | Some (p, q) => [p; q]
  | None => [s]
  end.

Definition set_service_name (n : string) (s : State) : State :=
  MkState (config s) (pod_prefix s) (pod_number s) n (config_file s)
    (network s) (sent s) (log s).

Definition set_pod_prefix (p : string) (s : State) : State :=
  MkState (config s) p (pod_number s) (service_name s) (config_file s)
    (network s) (sent s) (log s).

Definition set_pod_number (i : Z) (s : State) : State :=
  MkState (config s) (pod_prefix s) i (service_name s) (config_file s)
    (network s) (sent s) (log s).

Definition add_log (l : log_level) (msg : string) (s : State) : State :=
  MkState (config s) (pod_prefix s) (pod_number s) (service_name s)
    (config_file s) (network s) (sent s) (log s ++ [LogRecord AppLogger l msg]).

Section Startup.

(** [int(s)] on a string, [None] where it raises [ValueError]. *)
Variable py_int : string → option Z.

(** [define_cluster], given [os.environ].  The globals are assigned one by
    one, so what was assigned before a raise stays assigned. *)
Definition define_cluster (environ : gmap string string) : M State startup_error unit :=
  λ s,
    match environ !! "HOSTNAME" with
    | None => (Raise (KeyError "HOSTNAME"), s)
    | Some hostname =>
        let s := set_service_name (default "" (environ !! "HEADLESS_SERVICE")) s in
        match rsplit "-"%char hostname !! 0%nat with
        | None => (Raise IndexError, s)
        | Some prefix =>
            let s := set_pod_prefix prefix s in
            match rsplit "-"%char hostname !! 1%nat with
            | None => (Raise IndexError, s)
            | Some number =>
                match py_int number with
                | None => (Raise ValueError, s)
                | Some n =>
                    let s := set_pod_number n s in
                    let s := add_log INFO
                      ("Server #" +:+ str_int (pod_number s) +:+
                       " from Statefulset: " +:+ pod_prefix s) s in
                    let s := add_log INFO ("Service name: " +:+ service_name s) s in
                    (Ok tt, s)
                end
            end
        end
    end.

End Startup.

End Server.

(** ** Observations used in the statements *)

(** The requests a run from [w] to [w'] has added to the record. *)
Definition issued (w w' : World) : list (api_call * outcome) :=
  drop (length (requests w)) (requests w').

(** The log records a run from [w] to [w'] has added. *)
Definition logged (w w' : World) : list log_record :=
  drop (length (log w)) (log w').



(** An outcome the create handler carries on after: the call returned, or it
    raised with status 409. *)
Definition absorbed_on_create (o : outcome) : bool :=
  match o with
  | Returned => true
  | Raised e => bool_decide (ApiException.status e = 409)
  end.

(** A store in which [k] is bound: to what it was bound to already, else to
    [v]. *)
Definition ensure {V} (k : string * string) (v : V) (m : gmap (string * string) V)
    : gmap (string * string) V :=
  match m !! k with
  | Some _ => m
  | None => <[k := v]> m
  end.

(** How the server answers a create of a key that is bound, or not. *)
Definition create_outcome {V} (o : option V) : outcome :=
  match o with
  | Some _ => Raised (api_error 409 "Conflict")
  | None => Returned
  end.

(** How the server answers a patch or a delete of a key that is bound, or
    not. *)
Definition found_outcome {V} (o : option V) : outcome :=
  match o with
  | Some _ => Returned
  | None => Raised (api_error 404 "Not Found")
  end.

(** The names the handlers derive from the resource name. *)
Definition svc_name_of (name : string) : string := name +:+ "-svc".
Definition sts_name_of (name : string) : string := name +:+ "-sts".
Definition cm_name_of (name : string) : string := name +:+ "-cm".

(** The manifests the create handler builds for a resource. *)
Definition desired_service (name namespace : string) : V1Service.t :=
  Operator.service_manifest (svc_name_of name) namespace {[ "app" := name ]}.

Definition desired_config_map (spec : Spec.t) (name namespace : string) : V1ConfigMap.t :=
  Operator.configmap_manifest (cm_name_of name) namespace
    (default 1 (Spec.replicas spec)) (default 30 (Spec.timer spec))
    {[ "app" := name ]}.

Definition desired_stateful_set (spec : Spec.t) (name namespace : string)
    : V1StatefulSet.t :=
  Operator.statefulset_manifest (sts_name_of name) (svc_name_of name) (cm_name_of name)
    namespace {[ "app" := name ]}
    (default 1 (Spec.replicas spec))
    (default "6y6en/ping-pong:latest" (Spec.image spec)).

(** The three requests of the create handler, in the order it sends them. *)
Definition create_requests (spec : Spec.t) (name namespace : string) : list api_call :=
  [ create_namespaced_service namespace (desired_service name namespace);
    create_namespaced_config_map namespace (desired_config_map spec name namespace);
    create_namespaced_stateful_set namespace (desired_stateful_set spec name namespace) ].

(** The dictionary the create handler returns. *)
Definition stored_names (name : string) : gmap string string :=
  {[ "svc_name" := svc_name_of name; "sts_name" := sts_name_of name;
     "cm_name" := cm_name_of name ]}.


(** The two patch bodies of the update handler. *)
Definition ss_patch (replicas : option Z) (image : option string) : pyval :=
  PyDict [("spec", PyDict [
    ("replicas", of_opt_int replicas);
    ("template", PyDict [
      ("spec", PyDict [
        ("containers", PyList [
          PyDict [("name", PyStr "main"); ("image", of_opt_str image)]
        ])
      ])
    ])
  ])].

Definition cm_text (replicas timer : option Z) : string :=
  "replicas: " +:+ str_opt_int replicas +:+ LF +:+
  "timer: " +:+ str_opt_int timer +:+ LF.

Definition cm_patch (replicas timer : option Z) : pyval :=
  PyDict [("data", PyDict [("config.yaml", PyStr (cm_text replicas timer))])].

(** The two requests of the update handler, in the order it sends them. *)
Definition update_requests (spec : Spec.t) (name namespace : string) : list api_call :=
  [ patch_namespaced_stateful_set (sts_name_of name) namespace
      (ss_patch (Spec.replicas spec) (Spec.image spec));
    patch_namespaced_config_map (cm_name_of name) namespace
      (cm_patch (Spec.replicas spec) (Spec.timer spec)) ].

(** What the update handler logs about a patch, by its outcome. *)
Definition patch_record (done failed : string) (o : outcome) : log_record :=
  match o with
  | Returned => LogRecord RootLogging INFO done
  | Raised e => LogRecord RootLogging ERROR (failed +:+ ApiException.str e)
  end.

Definition change_record (c : change) : log_record :=
  let '(_, field, old, new) := c in
  LogRecord KopfLogger INFO
    ("Detected change in " +:+ field +:+ ": " +:+ old +:+ " -> " +:+ new).

(** The three requests of the delete handler, in the order it sends them. *)
Definition delete_requests (name namespace : string) : list api_call :=
  [ delete_namespaced_service (svc_name_of name) namespace;
    delete_namespaced_stateful_set (sts_name_of name) namespace;
    delete_namespaced_config_map (cm_name_of name) namespace ].

(** What the delete handler logs about a delete of [n], by its outcome. *)
Definition delete_record (n : string) (o : outcome) : log_record :=
  match o with
  | Returned => LogRecord KopfLogger INFO ("Deleted " +:+ n)
  | Raised e =>
      if decide (ApiException.status e = 404)
      then LogRecord KopfLogger INFO (n +:+ " already deleted")
      else LogRecord KopfLogger ERROR
             ("Failed to delete " +:+ n +:+ ": " +:+ ApiException.str e)
  end.

(** What the patches of the update handler make of a stored object: the
    containers named [main] get the image (a container of that name is added
    when there is none), the replica count is replaced, and the entry
    [config.yaml] of the data is replaced. *)
Definition set_main_image (image : option string) (c : V1Container.t) : V1Container.t :=
  if decide (V1Container.name c = "main")
  then V1Container.Build (V1Container.name c) image (V1Container.env c)
         (V1Container.ports c) (V1Container.volume_mounts c) (V1Container.resources c)
  else c.

Definition patched_containers (image : option string) (cs : list V1Container.t)
    : list V1Container.t :=
  if existsb (λ c, bool_decide (V1Container.name c = "main")) cs
  then set_main_image image <$> cs
  else cs ++ [V1Container.Build "main" image [] [] []
                (V1ResourceRequirements.Build ∅ ∅)].

Definition patched_stateful_set (replicas : option Z) (image : option string)
    (o : V1StatefulSet.t) : V1StatefulSet.t :=
  let sp := V1StatefulSet.spec o in
  let tpl := V1StatefulSetSpec.template sp in
  let pod := V1PodTemplateSpec.spec tpl in
  V1StatefulSet.Build (V1StatefulSet.metadata o)
    (V1StatefulSetSpec.Build (V1StatefulSetSpec.service_name sp) replicas
       (V1StatefulSetSpec.selector sp)
       (V1PodTemplateSpec.Build (V1PodTemplateSpec.metadata tpl)
          (V1PodSpec.Build (patched_containers image (V1PodSpec.containers pod))
             (V1PodSpec.volumes pod)))).

Definition patched_config_map (text : string) (c : V1ConfigMap.t) : V1ConfigMap.t :=
  V1ConfigMap.Build (V1ConfigMap.metadata c) (<["config.yaml" := text]> (V1ConfigMap.data c)).

(** The configuration a pass works with once [load_config] has run: what the
    file yields when it can be read and is not empty, else what was loaded
    before. *)
Definition loaded_config (s : Server.State) : pyval :=
  match Server.config_file s with
  | inl v => if Server.truthy v then v else Server.config s
  | inr _ => Server.config s
  end.

(** The ordinals from 0 to [replicas - 1], the pod's own left out. *)
Definition peers (replicas pod_number : Z) : list Z :=
  filter (λ i, i ≠ pod_number) (py_range 0 replicas).

(** What [load_config] logs, by what reading the file yields. *)
Definition load_record (py_str : pyval → string) (s : Server.State) : log_record :=
  match Server.config_file s with
  | inl _ => LogRecord AppLogger INFO ("Config loaded: " +:+ py_str (loaded_config s))
  | inr e => LogRecord AppLogger ERROR ("Failed to load config: " +:+ e)
  end.

(** What a pass logs about the ordinal [i], by what its URL answers. *)
Definition ping_record (s : Server.State) (i : Z) : log_record :=
  let url := Server.ping_url (Server.pod_prefix s) i (Server.service_name s) in
  match Server.network s url with
  | inl text =>
      LogRecord AppLogger INFO
        ("Ping from server " +:+ str_int (Server.pod_number s) +:+
         " to server " +:+ str_int i +:+ " -> " +:+ text)
  | inr e => LogRecord AppLogger WARNING ("Ping " +:+ url +:+ " failed: " +:+ e)
  end.

(** Whether the character occurs in the string. *)
Fixpoint contains_char (c : ascii) (s : string) : bool :=
  match s with
  | "" => false
  | String a s' => bool_decide (a = c) || contains_char c s'
  end.

(** ** The monad and the API, step by step *)

Lemma bind_run {S E A B} (m : M S E A) (k : A → M S E B) (s : S) :
  (m ≫= k) s = match m s with
               | (Ok a, s') => k a s'
               | (Raise e, s') => (Raise e, s')
               end.
Proof. reflexivity. Qed.

Lemma issued_app w w' l :
  requests w' = requests w ++ l → issued w w' = l.
Proof. intros H. unfold issued. rewrite H. apply drop_app_length. Qed.

Lemma logged_app w w' l :
  log w' = log w ++ l → logged w w' = l.
Proof. intros H. unfold logged. rewrite H. apply drop_app_length. Qed.

(** A request consumes one entry of the failure schedule, appends itself and
    its outcome to the record, and leaves the log alone. *)
Lemma api_run c w :
  ∃ o cl',
    api c w = (match o with Returned => Ok tt | Raised e => Raise e end,
               MkWorld cl' (tail (faults w)) (requests w ++ [(c, o)]) (log w)) ∧
    (∀ e, o = Raised e → cl' = cluster w).
Proof.
  unfold api. destruct (faults w) as [|[e|] fs]; simpl.
  - destruct (serve c (cluster w)) as [cl'|e].
    + exists Returned, cl'. split; [done|discriminate].
    + exists (Raised e), (cluster w). done.
  - exists (Raised e), (cluster w). done.
  - destruct (serve c (cluster w)) as [cl'|e].
    + exists Returned, cl'. split; [done|discriminate].
    + exists (Raised e), (cluster w). done.
Qed.

(** With nothing left to inject, the server serves the request. *)
Lemma api_served c cl rq lg :
  api c (MkWorld cl [] rq lg) =
    match serve c cl with
    | Ok cl' => (Ok tt, MkWorld cl' [] (rq ++ [(c, Returned)]) lg)
    | Raise e => (Raise e, MkWorld cl [] (rq ++ [(c, Raised e)]) lg)
    end.
Proof. unfold api; simpl. by destruct (serve c cl). Qed.

(** One [try: create / except ApiException] block of the create handler, in
    any world. *)
Lemma create_step_run c m1 m2 w :
  ∃ o cl' lg',
    let step := try_except (api c;; emit KopfLogger INFO m1)
      (λ e, if decide (ApiException.status e = 409)
            then emit KopfLogger INFO m2 else raise e) in
    let w' := MkWorld cl' (tail (faults w)) (requests w ++ [(c, o)]) lg' in
    (absorbed_on_create o = true ∧ step w = (Ok tt, w')) ∨
    (∃ e, o = Raised e ∧ ApiException.status e ≠ 409 ∧ step w = (Raise e, w')).
Proof.
  destruct (api_run c w) as (o & cl' & Hrun & _).
  unfold try_except. rewrite bind_run, Hrun.
  destruct o as [|e]; simpl.
  - eexists Returned, _, _. by left.
  - exists (Raised e). simpl. case_decide.
    + eexists _, _. left. by rewrite bool_decide_eq_true_2.
    + eexists _, _. right. by exists e.
Qed.

Ltac create_step o e :=
  rewrite bind_run;
  match goal with |- context [try_except (api ?c ≫= λ _, emit _ _ ?m1)
                                (λ x, if _ then emit _ _ ?m2 else _) ?w0] =>
    let cl := fresh "cl" in let lg := fresh "lg" in
    let Ho := fresh "Ho" in let H := fresh "H" in
    destruct (create_step_run c m1 m2 w0) as (o & cl & lg & [[Ho H]|(e & -> & Ho & H)]);
    cbv zeta in H; rewrite H; clear H; cbn [faults requests cluster log]
  end.

(** The create handler in any world: the requests it sends are an initial
    segment of its three requests, cut after the first outcome it does not
    absorb. *)
Lemma create_fn_run spec name namespace w r w' :
  Operator.create_fn spec name namespace w = (r, w') →
  ∃ outs,
    issued w w' = zip (create_requests spec name namespace) outs ∧
    match r with
    | Ok d =>
        d = stored_names name ∧
        length outs = 3%nat ∧ Forall (λ o, absorbed_on_create o = true) outs
    | Raise e =>
        ∃ pre, outs = pre ++ [Raised e] ∧ (length pre < 3)%nat ∧
               Forall (λ o, absorbed_on_create o = true) pre ∧
               ApiException.status e ≠ 409
    end.
Proof.
  destruct w as [cl fs rq lg].
  unfold Operator.create_fn.
  rewrite bind_run. unfold emit at 1, modify at 1. cbv beta iota zeta.
  create_step o1 e.
  2:{ intros [= <- <-]. exists [Raised e]. split.
      - apply issued_app. reflexivity.
      - exists []. split_and!; [done|simpl; lia|auto|done]. }
  create_step o2 e.
  2:{ intros [= <- <-]. exists [o1; Raised e]. split.
      - apply issued_app. simpl. by rewrite <- app_assoc.
      - exists [o1]. split_and!; [done|simpl; lia|auto|done]. }
  create_step o3 e.
  2:{ intros [= <- <-]. exists [o1; o2; Raised e]. split.
      - apply issued_app. simpl. by rewrite <- !app_assoc.
      - exists [o1; o2]. split_and!; [done|simpl; lia|auto|done]. }
  intros [= <- <-]. exists [o1; o2; o3]. split.
  - apply issued_app. simpl. by rewrite <- !app_assoc.
  - split_and!; auto.
Qed.

(** One [try: create / except ApiException] block when nothing is injected. *)
Lemma create_step_served c m1 m2 cl rq lg :
  try_except (api c;; emit KopfLogger INFO m1)
    (λ e, if decide (ApiException.status e = 409)
          then emit KopfLogger INFO m2 else raise e) (MkWorld cl [] rq lg)
  = match serve c cl with
    | Ok cl' =>
        (Ok tt, MkWorld cl' [] (rq ++ [(c, Returned)])
                  (lg ++ [LogRecord KopfLogger INFO m1]))
    | Raise e =>
        if decide (ApiException.status e = 409)
        then (Ok tt, MkWorld cl [] (rq ++ [(c, Raised e)])
                       (lg ++ [LogRecord KopfLogger INFO m2]))
        else (Raise e, MkWorld cl [] (rq ++ [(c, Raised e)]) lg)
    end.
Proof.
  unfold try_except. rewrite bind_run, api_served.
  destruct (serve c cl) as [cl'|e]; [done|]. by case_decide.
Qed.

Lemma serve_create_service name namespace cl :
  serve (create_namespaced_service namespace (desired_service name namespace)) cl
  = match services cl !! (namespace, svc_name_of name) with
    | Some _ => Raise (api_error 409 "Conflict")
    | None => Ok (MkCluster (<[(namespace, svc_name_of name) := desired_service name namespace]> (services cl))
                    (config_maps cl) (stateful_sets cl))
    end.
Proof.
  unfold serve, store_create, desired_service, Operator.service_manifest.
  cbn [V1Service.metadata V1ObjectMeta.name].
  by destruct (services cl !! _).
Qed.

Lemma serve_create_config_map spec name namespace cl :
  serve (create_namespaced_config_map namespace (desired_config_map spec name namespace)) cl
  = match config_maps cl !! (namespace, cm_name_of name) with
    | Some _ => Raise (api_error 409 "Conflict")
    | None => Ok (MkCluster (services cl)
                    (<[(namespace, cm_name_of name) := desired_config_map spec name namespace]> (config_maps cl))
                    (stateful_sets cl))
    end.
Proof.
  unfold serve, store_create, desired_config_map, Operator.configmap_manifest.
  cbn [V1ConfigMap.metadata V1ObjectMeta.name].
  by destruct (config_maps cl !! _).
Qed.

Lemma serve_create_stateful_set spec name namespace cl :
  serve (create_namespaced_stateful_set namespace (desired_stateful_set spec name namespace)) cl
  = match stateful_sets cl !! (namespace, sts_name_of name) with
    | Some _ => Raise (api_error 409 "Conflict")
    | None => Ok (MkCluster (services cl) (config_maps cl)
                    (<[(namespace, sts_name_of name) := desired_stateful_set spec name namespace]> (stateful_sets cl)))
    end.
Proof.
  unfold serve, store_create, desired_stateful_set, Operator.statefulset_manifest.
  cbn [V1StatefulSet.metadata V1ObjectMeta.name].
  by destruct (stateful_sets cl !! _).
Qed.

Lemma status_api_error s r : ApiException.status (api_error s r) = s.
Proof. reflexivity. Qed.

(** The create handler when nothing is injected: it returns, every key is
    bound afterwards, and what was bound before is still bound to the same
    object. *)
Lemma create_fn_served spec name namespace cl rq lg :
  ∃ lg',
    Operator.create_fn spec name namespace (MkWorld cl [] rq lg)
    = (Ok (stored_names name),
       MkWorld
         (MkCluster
            (ensure (namespace, svc_name_of name) (desired_service name namespace)
               (services cl))
            (ensure (namespace, cm_name_of name) (desired_config_map spec name namespace)
               (config_maps cl))
            (ensure (namespace, sts_name_of name) (desired_stateful_set spec name namespace)
               (stateful_sets cl)))
         []
         (rq ++ zip (create_requests spec name namespace)
                  [ create_outcome (services cl !! (namespace, svc_name_of name));
                    create_outcome (config_maps cl !! (namespace, cm_name_of name));
                    create_outcome (stateful_sets cl !! (namespace, sts_name_of name)) ])
         (lg ++ lg')) ∧
    Forall (λ r, level r = INFO) lg'.
Proof.
  destruct cl as [svcs cms stss].
  unfold Operator.create_fn.
  rewrite bind_run. unfold emit at 1, modify at 1. cbv beta iota zeta.
  cbn [cluster faults requests log services config_maps stateful_sets].
  fold (svc_name_of name) (cm_name_of name) (sts_name_of name).
  fold (desired_service name namespace).
  fold (desired_config_map spec name namespace).
  fold (desired_stateful_set spec name namespace).
  unfold ensure, create_outcome.
  rewrite bind_run, create_step_served, serve_create_service.
  cbn [services config_maps stateful_sets].
  destruct (svcs !! _) as [?|]; cbv beta iota;
    [rewrite status_api_error, decide_True by done|];
    (rewrite bind_run, create_step_served, serve_create_config_map;
     cbn [services config_maps stateful_sets];
     destruct (cms !! _) as [?|]; cbv beta iota;
       [rewrite status_api_error, decide_True by done|];
     (rewrite bind_run, create_step_served, serve_create_stateful_set;
      cbn [services config_maps stateful_sets];
      destruct (stss !! _) as [?|]; cbv beta iota;
        [rewrite status_api_error, decide_True by done|];
      (eexists [_; _; _; _]; split;
        [unfold mret, M_ret, ret, create_requests, stored_names; cbn [zip zip_with];
         rewrite <- !app_assoc; reflexivity
        |repeat first [apply List.Forall_cons; [reflexivity|] | apply List.Forall_nil]]))).
Qed.

Lemma ensure_lookup {V} k (v : V) m :
  is_Some (ensure k v m !! k).
Proof.
  unfold ensure. destruct (m !! k) eqn:E.
  - rewrite E. eauto.
  - rewrite lookup_insert_eq. eauto.
Qed.

Lemma ensure_bound {V} k (v : V) m :
  is_Some (m !! k) → ensure k v m = m.
Proof. intros [x Hx]. unfold ensure. by rewrite Hx. Qed.

Lemma ensure_size {V} k (v : V) m :
  size (ensure k v m) = (size m + if m !! k is Some _ then 0 else 1)%nat.
Proof.
  unfold ensure. destruct (m !! k) eqn:E.
  - lia.
  - rewrite map_size_insert_None by done. lia.
Qed.

Lemma create_outcome_bound {V} (o : option V) :
  is_Some o → create_outcome o = Raised (api_error 409 "Conflict").
Proof. by intros [x ->]. Qed.

(** C1. Idempotent create and partial-create recovery.  When the server
    serves every request, the create handler returns normally from any cluster
    state: each of the three dependent objects that is missing is created
    (the request returns), each that exists is left as it is (the request
    raises 409, which is absorbed), and nothing but informational records is
    logged.  A second invocation right after the first returns normally too,
    finds all three (three 409s) and leaves the cluster as the first left it;
    each store has grown by exactly the one object that was missing. *)
Theorem create_fn_idempotent spec name namespace cl rq lg :
  ∃ w1 w2,
    let w0 := MkWorld cl [] rq lg in
    let k_svc := (namespace, svc_name_of name) in
    let k_cm := (namespace, cm_name_of name) in
    let k_sts := (namespace, sts_name_of name) in
    Operator.create_fn spec name namespace w0 = (Ok (stored_names name), w1) ∧
    Operator.create_fn spec name namespace w1 = (Ok (stored_names name), w2) ∧
    cluster w1 =
      MkCluster
        (ensure k_svc (desired_service name namespace) (services cl))
        (ensure k_cm (desired_config_map spec name namespace) (config_maps cl))
        (ensure k_sts (desired_stateful_set spec name namespace) (stateful_sets cl)) ∧
    issued w0 w1 =
      zip (create_requests spec name namespace)
        [ create_outcome (services cl !! k_svc);
          create_outcome (config_maps cl !! k_cm);
          create_outcome (stateful_sets cl !! k_sts) ] ∧
    cluster w2 = cluster w1 ∧
    issued w1 w2 =
      zip (create_requests spec name namespace)
        (replicate 3 (Raised (api_error 409 "Conflict"))) ∧
    is_Some (services (cluster w2) !! k_svc) ∧
    is_Some (config_maps (cluster w2) !! k_cm) ∧
    is_Some (stateful_sets (cluster w2) !! k_sts) ∧
    size (services (cluster w2))
      = (size (services cl) + if services cl !! k_svc is Some _ then 0 else 1)%nat ∧
    size (config_maps (cluster w2))
      = (size (config_maps cl) + if config_maps cl !! k_cm is Some _ then 0 else 1)%nat ∧
    size (stateful_sets (cluster w2))
      = (size (stateful_sets cl) + if stateful_sets cl !! k_sts is Some _ then 0 else 1)%nat ∧
    Forall (λ r, level r = INFO) (logged w0 w2).
Proof.
  destruct (create_fn_served spec name namespace cl rq lg) as (lg1 & H1 & Hlg1).
  match type of H1 with _ = (_, MkWorld ?c1 _ ?r1 ?l1) =>
    destruct (create_fn_served spec name namespace c1 r1 l1) as (lg2 & H2 & Hlg2)
  end.
  cbn [services config_maps stateful_sets] in H2.
  rewrite !(ensure_bound _ _ (ensure _ _ _)) in H2 by apply ensure_lookup.
  rewrite !(create_outcome_bound (ensure _ _ _ !! _)) in H2 by apply ensure_lookup.
  eexists _, _. cbv zeta. split; [exact H1|]. split; [exact H2|].
  cbn [cluster services config_maps stateful_sets].
  split_and!; try done.
  - by apply issued_app.
  - by apply issued_app.
  - apply ensure_lookup.
  - apply ensure_lookup.
  - apply ensure_lookup.
  - apply ensure_size.
  - apply ensure_size.
  - apply ensure_size.
  - erewrite logged_app; [|cbn [log]; by rewrite <- app_assoc].
    by apply Forall_app.
Qed.

(** C2. Order and error policy of the create handler, in any world and under
    any schedule of failures.  The requests it sends are, in this order, the
    create of the Service, of the ConfigMap and of the StatefulSet.  It carries
    on after a request that returns or that raises with status 409.  It returns
    normally exactly when all three requests were sent and absorbed that way;
    otherwise the last request sent raised some [e] whose status is not 409,
    no further request was sent, and the handler raises that same [e]. *)
Theorem create_fn_order_and_errors spec name namespace w :
  ∃ outs,
    issued w (Operator.create_fn spec name namespace w).2
      = zip (create_requests spec name namespace) outs ∧
    match (Operator.create_fn spec name namespace w).1 with
    | Ok d =>
        d = stored_names name ∧
        length outs = 3%nat ∧ Forall (λ o, absorbed_on_create o = true) outs
    | Raise e =>
        ∃ pre, outs = pre ++ [Raised e] ∧ (length pre < 3)%nat ∧
               Forall (λ o, absorbed_on_create o = true) pre ∧
               ApiException.status e ≠ 409
    end.
Proof.
  destruct (Operator.create_fn spec name namespace w) as [r w'] eqn:Hrun.
  exact (create_fn_run _ _ _ _ _ _ Hrun).
Qed.

(** The loop over [diff] only logs. *)
Lemma log_changes_run (diff : list change) cl fs rq lg :
  for_each diff (λ change,
    let '(_, field, old, new) := change in
    emit KopfLogger INFO
      ("Detected change in " +:+ field +:+ ": " +:+ old +:+ " -> " +:+ new))
    (MkWorld cl fs rq lg)
  = (Ok tt, MkWorld cl fs rq (lg ++ (change_record <$> diff))).
Proof.
  revert lg. induction diff as [|[[[op field] old] new] diff IH]; intros lg.
  - simpl. by rewrite app_nil_r.
  - cbn [for_each]. rewrite bind_run. unfold emit at 1, modify at 1.
    cbn [cluster faults requests log]. rewrite IH.
    by rewrite <- app_assoc.
Qed.

(** One [try: patch / except ApiException] block of the update handler, in
    any world: whatever the outcome, the block returns. *)
Lemma patch_step_run c m1 m2 w :
  ∃ o cl',
    try_except (api c;; emit RootLogging INFO m1)
      (λ e, emit RootLogging ERROR (m2 +:+ ApiException.str e)) w
    = (Ok tt, MkWorld cl' (tail (faults w)) (requests w ++ [(c, o)])
                (log w ++ [patch_record m1 m2 o])).
Proof.
  destruct (api_run c w) as (o & cl' & Hrun & _).
  unfold try_except. rewrite bind_run, Hrun.
  destruct o as [|e]; [exists Returned|exists (Raised e)]; by eexists.
Qed.

(** The update handler in any world. *)
Lemma update_fn_run spec name namespace diff w :
  ∃ o1 o2 cl',
    Operator.update_fn spec name namespace diff w
    = (Ok tt,
       MkWorld cl' (tail (tail (faults w)))
         (requests w ++ zip (update_requests spec name namespace) [o1; o2])
         (log w ++ (change_record <$> diff) ++
            [ patch_record ("Updated StatefulSet " +:+ sts_name_of name)
                "Failed to update StatefulSet: " o1;
              patch_record ("Updated ConfigMap " +:+ cm_name_of name)
                "Failed to update ConfigMap: " o2 ])).
Proof.
  destruct w as [cl fs rq lg].
  unfold Operator.update_fn. cbv zeta.
  rewrite bind_run, log_changes_run.
  rewrite bind_run.
  match goal with |- context [try_except (api ?c ≫= λ _, emit _ _ ?m1)
                                (λ x, emit _ _ (?m2 +:+ _)) ?w0] =>
    destruct (patch_step_run c m1 m2 w0) as (o1 & cl1 & H1)
  end.
  rewrite H1; clear H1. cbn [cluster faults requests log].
  match goal with |- context [try_except (api ?c ≫= λ _, emit _ _ ?m1)
                                (λ x, emit _ _ (?m2 +:+ _)) ?w0] =>
    destruct (patch_step_run c m1 m2 w0) as (o2 & cl2 & H2)
  end.
  rewrite H2; clear H2. cbn [cluster faults requests log].
  exists o1, o2, cl2. unfold update_requests, ss_patch, cm_patch, cm_text.
  cbn [zip zip_with]. by rewrite <- !app_assoc.
Qed.

(** One [try: delete / except ApiException] block of the delete handler, in
    any world: whatever the outcome, the block returns. *)
Lemma delete_step_run c n w :
  ∃ o cl',
    try_except (api c;; emit KopfLogger INFO ("Deleted " +:+ n))
      (λ e, if decide (ApiException.status e = 404)
            then emit KopfLogger INFO (n +:+ " already deleted")
            else emit KopfLogger ERROR
                   ("Failed to delete " +:+ n +:+ ": " +:+ ApiException.str e)) w
    = (Ok tt, MkWorld cl' (tail (faults w)) (requests w ++ [(c, o)])
                (log w ++ [delete_record n o])).
Proof.
  destruct (api_run c w) as (o & cl' & Hrun & _).
  unfold try_except. rewrite bind_run, Hrun.
  destruct o as [|e]; [exists Returned; by eexists|].
  exists (Raised e). unfold delete_record. case_decide; by eexists.
Qed.


(** *** The store under the requests of the update and delete handlers *)

Lemma merge_image_main image c :
  merge_image (PyDict [("name", PyStr "main"); ("image", of_opt_str image)]) c
  = Some (V1Container.Build (V1Container.name c) image (V1Container.env c)
            (V1Container.ports c) (V1Container.volume_mounts c)
            (V1Container.resources c)).
Proof. by destruct image. Qed.

Lemma merge_main_existing image cs :
  mapM (λ c, if decide (V1Container.name c = "main")
             then merge_image (PyDict [("name", PyStr "main");
                                       ("image", of_opt_str image)]) c
             else Some c) cs
  = Some (set_main_image image <$> cs).
Proof.
  induction cs as [|c cs IH]; [done|].
  rewrite fmap_cons. cbn [mapM]. rewrite IH.
  destruct (decide (V1Container.name c = "main")).
  - rewrite merge_image_main. simpl. unfold set_main_image. by rewrite decide_True.
  - simpl. unfold set_main_image. by rewrite decide_False.
Qed.

Lemma merge_main replicas image cs :
  merge_template
    (PyDict [("replicas", of_opt_int replicas);
             ("template", PyDict [("spec", PyDict [("containers", PyList [
                PyDict [("name", PyStr "main"); ("image", of_opt_str image)]])])])])
    cs
  = Some (patched_containers image cs).
Proof.
  unfold merge_template.
  change (py_path _ _) with
    (Some (PyList [PyDict [("name", PyStr "main"); ("image", of_opt_str image)]])).
  cbn [merge_containers]. unfold merge_container.
  change (py_get "name" _) with (Some (PyStr "main")).
  unfold patched_containers. destruct (existsb _ cs).
  - by rewrite merge_main_existing.
  - by rewrite merge_image_main.
Qed.

Lemma merge_stateful_set_patch replicas image o :
  merge_stateful_set (ss_patch replicas image) o
  = Some (patched_stateful_set replicas image o).
Proof.
  unfold merge_stateful_set, patched_stateful_set, ss_patch.
  change (py_get "spec" _) with
    (Some (PyDict [("replicas", of_opt_int replicas);
             ("template", PyDict [("spec", PyDict [("containers", PyList [
                PyDict [("name", PyStr "main"); ("image", of_opt_str image)]])])])])).
  cbv beta iota zeta. rewrite merge_main.
  by destruct replicas.
Qed.

Lemma merge_config_map_patch replicas timer c :
  merge_config_map (cm_patch replicas timer) c
  = Some (patched_config_map (cm_text replicas timer) c).
Proof. reflexivity. Qed.

Lemma alter_lookup_Some {V} (f : V → V) (k : string * string) (m : gmap (string * string) V) v :
  m !! k = Some v → <[k := f v]> m = alter f k m.
Proof.
  intros Hk. apply map_eq. intros k'.
  destruct (decide (k = k')) as [<-|Hne].
  - by rewrite lookup_insert_eq, lookup_alter_eq, Hk.
  - by rewrite lookup_insert_ne, lookup_alter_ne.
Qed.

Lemma alter_lookup_None {V} (f : V → V) (k : string * string) (m : gmap (string * string) V) :
  m !! k = None → m = alter f k m.
Proof.
  intros Hk. apply map_eq. intros k'.
  destruct (decide (k = k')) as [<-|Hne].
  - by rewrite lookup_alter_eq, Hk.
  - by rewrite lookup_alter_ne.
Qed.

Lemma serve_patch_stateful_set n ns replicas image cl :
  serve (patch_namespaced_stateful_set n ns (ss_patch replicas image)) cl
  = match found_outcome (stateful_sets cl !! (ns, n)) with
    | Returned =>
        Ok (MkCluster (services cl) (config_maps cl)
              (alter (patched_stateful_set replicas image) (ns, n) (stateful_sets cl)))
    | Raised e => Raise e
    end.
Proof.
  unfold serve, store_patch.
  destruct (stateful_sets cl !! (ns, n)) as [o|] eqn:Hk; [|done].
  rewrite merge_stateful_set_patch. cbn [found_outcome].
  by rewrite (alter_lookup_Some _ _ _ _ Hk).
Qed.

Lemma serve_patch_config_map n ns replicas timer cl :
  serve (patch_namespaced_config_map n ns (cm_patch replicas timer)) cl
  = match found_outcome (config_maps cl !! (ns, n)) with
    | Returned =>
        Ok (MkCluster (services cl)
              (alter (patched_config_map (cm_text replicas timer)) (ns, n) (config_maps cl))
              (stateful_sets cl))
    | Raised e => Raise e
    end.
Proof.
  unfold serve, store_patch.
  destruct (config_maps cl !! (ns, n)) as [o|] eqn:Hk; [|done].
  rewrite merge_config_map_patch. cbn [found_outcome].
  by rewrite (alter_lookup_Some _ _ _ _ Hk).
Qed.

Lemma serve_delete c cl :
  match c with
  | delete_namespaced_service n ns =>
      serve c cl = match found_outcome (services cl !! (ns, n)) with
                   | Returned => Ok (MkCluster (delete (ns, n) (services cl))
                                       (config_maps cl) (stateful_sets cl))
                   | Raised e => Raise e
                   end
  | delete_namespaced_stateful_set n ns =>
      serve c cl = match found_outcome (stateful_sets cl !! (ns, n)) with
                   | Returned => Ok (MkCluster (services cl) (config_maps cl)
                                       (delete (ns, n) (stateful_sets cl)))
                   | Raised e => Raise e
                   end
  | delete_namespaced_config_map n ns =>
      serve c cl = match found_outcome (config_maps cl !! (ns, n)) with
                   | Returned => Ok (MkCluster (services cl)
                                       (delete (ns, n) (config_maps cl))
                                       (stateful_sets cl))
                   | Raised e => Raise e
                   end
  | _ => True
  end.
Proof.
  destruct c; try done; unfold serve, store_delete;
    by destruct (_ !! _).
Qed.

(** A block of the update handler when nothing is injected. *)
Lemma patch_step_served c m1 m2 cl rq lg :
  try_except (api c;; emit RootLogging INFO m1)
    (λ e, emit RootLogging ERROR (m2 +:+ ApiException.str e)) (MkWorld cl [] rq lg)
  = match serve c cl with
    | Ok cl' =>
        (Ok tt, MkWorld cl' [] (rq ++ [(c, Returned)])
                  (lg ++ [patch_record m1 m2 Returned]))
    | Raise e =>
        (Ok tt, MkWorld cl [] (rq ++ [(c, Raised e)])
                  (lg ++ [patch_record m1 m2 (Raised e)]))
    end.
Proof.
  unfold try_except. rewrite bind_run, api_served.
  by destruct (serve c cl).
Qed.

(** A block of the delete handler when nothing is injected. *)
Lemma delete_step_served c n cl rq lg :
  try_except (api c;; emit KopfLogger INFO ("Deleted " +:+ n))
    (λ e, if decide (ApiException.status e = 404)
          then emit KopfLogger INFO (n +:+ " already deleted")
          else emit KopfLogger ERROR
                 ("Failed to delete " +:+ n +:+ ": " +:+ ApiException.str e))
    (MkWorld cl [] rq lg)
  = match serve c cl with
    | Ok cl' =>
        (Ok tt, MkWorld cl' [] (rq ++ [(c, Returned)])
                  (lg ++ [delete_record n Returned]))
    | Raise e =>
        (Ok tt, MkWorld cl [] (rq ++ [(c, Raised e)])
                  (lg ++ [delete_record n (Raised e)]))
    end.
Proof.
  unfold try_except. rewrite bind_run, api_served.
  destruct (serve c cl) as [cl'|e]; [done|].
  unfold delete_record. by case_decide.
Qed.

(** The update handler when nothing is injected: each object that exists is
    patched, each that is missing is answered 404 and left missing. *)
Lemma update_fn_served spec name namespace diff cl rq lg :
  ∃ lg',
    Operator.update_fn spec name namespace diff (MkWorld cl [] rq lg)
    = (Ok tt,
       MkWorld
         (MkCluster (services cl)
            (alter (patched_config_map (cm_text (Spec.replicas spec) (Spec.timer spec)))
               (namespace, cm_name_of name) (config_maps cl))
            (alter (patched_stateful_set (Spec.replicas spec) (Spec.image spec))
               (namespace, sts_name_of name) (stateful_sets cl)))
         []
         (rq ++ zip (update_requests spec name namespace)
                  [ found_outcome (stateful_sets cl !! (namespace, sts_name_of name));
                    found_outcome (config_maps cl !! (namespace, cm_name_of name)) ])
         lg').
Proof.
  destruct cl as [svcs cms stss].
  unfold Operator.update_fn. cbv zeta.
  rewrite bind_run, log_changes_run. unfold Operator.CONFIG_KEY.
  fold (ss_patch (Spec.replicas spec) (Spec.image spec)).
  fold (cm_text (Spec.replicas spec) (Spec.timer spec)).
  fold (cm_patch (Spec.replicas spec) (Spec.timer spec)).
  fold (sts_name_of name) (cm_name_of name).
  rewrite bind_run, patch_step_served, serve_patch_stateful_set.
  cbn [services config_maps stateful_sets].
  destruct (stss !! _) as [o|] eqn:Hsts; cbn [found_outcome]; cbv beta iota;
    (rewrite patch_step_served, serve_patch_config_map;
     cbn [services config_maps stateful_sets];
     destruct (cms !! _) as [c|] eqn:Hcm; cbn [found_outcome]; cbv beta iota;
     eexists; unfold update_requests; cbn [zip zip_with];
     rewrite <- ?app_assoc; cbn [app];
     rewrite <- ?(alter_lookup_None _ _ _ Hsts), <- ?(alter_lookup_None _ _ _ Hcm);
     reflexivity).
Qed.

(** The delete handler when nothing is injected: afterwards none of the three
    keys is bound. *)
Lemma delete_fn_served spec name namespace cl rq lg :
  Operator.delete_fn spec name namespace (MkWorld cl [] rq lg)
  = (Ok tt,
     MkWorld
       (MkCluster (delete (namespace, svc_name_of name) (services cl))
          (delete (namespace, cm_name_of name) (config_maps cl))
          (delete (namespace, sts_name_of name) (stateful_sets cl)))
       []
       (rq ++ zip (delete_requests name namespace)
                [ found_outcome (services cl !! (namespace, svc_name_of name));
                  found_outcome (stateful_sets cl !! (namespace, sts_name_of name));
                  found_outcome (config_maps cl !! (namespace, cm_name_of name)) ])
       (lg ++ [ delete_record (svc_name_of name)
                  (found_outcome (services cl !! (namespace, svc_name_of name)));
                delete_record (sts_name_of name)
                  (found_outcome (stateful_sets cl !! (namespace, sts_name_of name)));
                delete_record (cm_name_of name)
                  (found_outcome (config_maps cl !! (namespace, cm_name_of name))) ])).
Proof.
  destruct cl as [svcs cms stss].
  unfold Operator.delete_fn. cbv zeta. cbn [for_each].
  fold (svc_name_of name) (sts_name_of name) (cm_name_of name).
  rewrite bind_run, delete_step_served.
  rewrite (serve_delete (delete_namespaced_service _ _)).
  cbn [services config_maps stateful_sets].
  destruct (svcs !! _) as [?|] eqn:Hsvc; cbn [found_outcome]; cbv beta iota;
    (rewrite bind_run, delete_step_served;
     rewrite (serve_delete (delete_namespaced_stateful_set _ _));
     cbn [services config_maps stateful_sets];
     destruct (stss !! _) as [?|] eqn:Hsts; cbn [found_outcome]; cbv beta iota;
     (rewrite bind_run, delete_step_served;
      rewrite (serve_delete (delete_namespaced_config_map _ _));
      cbn [services config_maps stateful_sets];
      destruct (cms !! _) as [?|] eqn:Hcm; cbn [found_outcome]; cbv beta iota;
      unfold delete_requests; cbn [zip zip_with];
      rewrite <- ?app_assoc; cbn [app];
      rewrite ?(delete_id _ _ Hsvc), ?(delete_id _ _ Hsts), ?(delete_id _ _ Hcm);
      reflexivity)).
Qed.







Lemma zip_fst_prefix {A B} (l : list A) (k : list B) :
  (zip l k).*1 `prefix_of` l.
Proof.
  revert k. induction l as [|x l IH]; intros [|y k]; simpl.
  - done.
  - done.
  - apply prefix_nil.
  - apply prefix_cons, IH.
Qed.


(** Whatever the world, every request of the create handler is one of its
    three, in their order. *)
Lemma create_fn_issued_prefix spec name namespace w :
  (issued w (Operator.create_fn spec name namespace w).2).*1
    `prefix_of` create_requests spec name namespace.
Proof.
  destruct (Operator.create_fn spec name namespace w) as [r w'] eqn:Hrun.
  cbn [snd]. destruct (create_fn_run _ _ _ _ _ _ Hrun) as (outs & -> & _).
  apply zip_fst_prefix.
Qed.




(** What the update handler leaves under the two keys when nothing is
    injected. *)
Lemma update_fn_effect spec name namespace diff cl rq lg :
  config_maps
    (cluster (Operator.update_fn spec name namespace diff (MkWorld cl [] rq lg)).2)
    !! (namespace, cm_name_of name)
  = patched_config_map (cm_text (Spec.replicas spec) (Spec.timer spec))
      <$> config_maps cl !! (namespace, cm_name_of name) ∧
  stateful_sets
    (cluster (Operator.update_fn spec name namespace diff (MkWorld cl [] rq lg)).2)
    !! (namespace, sts_name_of name)
  = patched_stateful_set (Spec.replicas spec) (Spec.image spec)
      <$> stateful_sets cl !! (namespace, sts_name_of name).
Proof.
  destruct (update_fn_served spec name namespace diff cl rq lg) as (lg' & ->).
  cbn [snd cluster config_maps stateful_sets].
  by rewrite !lookup_alter_eq.
Qed.

(** C6. The update handler applies no defaults.  It reads [replicas], [timer]
    and [image] from the spec as they are, a missing one as [None], and puts
    them in its two patches, in any world: a missing replica count or image
    goes out as a null, and with [replicas] and [timer] both missing the
    ConfigMap text is [replicas: None] and [timer: None], each ended by a line
    feed.  When the server serves the requests, that text is what the stored
    ConfigMap holds under [config.yaml] afterwards, and the stored StatefulSet
    has its replica count cleared.  The create handler, for the same spec,
    sends 1, 30 and the baseline image. *)
Theorem update_fn_applies_no_defaults spec name namespace diff w :
  (issued w (Operator.update_fn spec name namespace diff w).2).*1
    = [ patch_namespaced_stateful_set (name +:+ "-sts") namespace
          (ss_patch (Spec.replicas spec) (Spec.image spec));
        patch_namespaced_config_map (name +:+ "-cm") namespace
          (PyDict [("data", PyDict [("config.yaml",
             PyStr ("replicas: " +:+ str_opt_int (Spec.replicas spec) +:+ LF +:+
                    "timer: " +:+ str_opt_int (Spec.timer spec) +:+ LF))])]) ] ∧
  (∀ image, py_path ["spec"; "replicas"] (ss_patch None image) = Some PyNone) ∧
  (∀ replicas,
     py_path ["spec"; "template"; "spec"; "containers"] (ss_patch replicas None)
     = Some (PyList [PyDict [("name", PyStr "main"); ("image", PyNone)]])) ∧
  cm_text None None = "replicas: None" +:+ LF +:+ "timer: None" +:+ LF ∧
  (∀ image cl rq lg,
     let w' := (Operator.update_fn (Spec.Build None None image) name namespace diff
                  (MkWorld cl [] rq lg)).2 in
     (config_maps (cluster w') !! (namespace, name +:+ "-cm")
        ≫= λ c, V1ConfigMap.data c !! "config.yaml")
     = (config_maps cl !! (namespace, name +:+ "-cm")
          ≫= λ _, Some ("replicas: None" +:+ LF +:+ "timer: None" +:+ LF)) ∧
     (stateful_sets (cluster w') !! (namespace, name +:+ "-sts")
        ≫= λ o, Some (V1StatefulSetSpec.replicas (V1StatefulSet.spec o)))
     = (stateful_sets cl !! (namespace, name +:+ "-sts") ≫= λ _, Some None)) ∧
  create_requests (Spec.Build None None None) name namespace
    = [ create_namespaced_service namespace
          (Operator.service_manifest (name +:+ "-svc") namespace {[ "app" := name ]});
        create_namespaced_config_map namespace
          (Operator.configmap_manifest (name +:+ "-cm") namespace 1 30
             {[ "app" := name ]});
        create_namespaced_stateful_set namespace
          (Operator.statefulset_manifest (name +:+ "-sts") (name +:+ "-svc")
             (name +:+ "-cm") namespace {[ "app" := name ]} 1
             "6y6en/ping-pong:latest") ] ∧
  (issued w (Operator.create_fn (Spec.Build None None None) name namespace w).2).*1
    `prefix_of` create_requests (Spec.Build None None None) name namespace.
Proof.
  split_and!.
  - destruct (update_fn_run spec name namespace diff w) as (o1 & o2 & cl' & ->).
    cbn [snd]. by erewrite issued_app by (cbn [requests]; reflexivity).
  - done.
  - done.
  - done.
  - intros image cl rq lg. cbv zeta.
    destruct (update_fn_effect (Spec.Build None None image) name namespace diff cl rq lg)
      as [Hcm Hsts].
    unfold cm_name_of, sts_name_of in *. rewrite Hcm, Hsts.
    cbn [Spec.replicas Spec.timer Spec.image].
    split.
    + destruct (config_maps cl !! _) as [c|]; [|done]. cbn.
      apply lookup_insert_eq.
    + by destruct (stateful_sets cl !! _) as [o|].
  - done.
  - apply create_fn_issued_prefix.
Qed.

(** C3, where the code departs from the claim.  A resource is created from a
    spec that gives only an image, then updated by a spec that changes only
    that image, on a cluster that serves every request.  After the create the
    ConfigMap reads [replicas: 1] and [timer: 30] and the StatefulSet has one
    replica; after the update the ConfigMap reads [replicas: None] and
    [timer: None] and the replica count of the StatefulSet is cleared. *)
Theorem update_fn_image_only_rewrites_config :
  let old := Spec.Build None None (Some "6y6en/ping-pong:v1") in
  let new := Spec.Build None None (Some "6y6en/ping-pong:v2") in
  let diff := [("change", "('spec', 'image')",
                "6y6en/ping-pong:v1", "6y6en/ping-pong:v2")] in
  let w0 := MkWorld (MkCluster ∅ ∅ ∅) [] [] [] in
  let w1 := (Operator.create_fn old "foo" "default" w0).2 in
  let w2 := (Operator.update_fn new "foo" "default" diff w1).2 in
  let text w := config_maps (cluster w) !! ("default", "foo-cm")
                  ≫= λ c, V1ConfigMap.data c !! "config.yaml" in
  let count w := stateful_sets (cluster w) !! ("default", "foo-sts")
                   ≫= λ o, Some (V1StatefulSetSpec.replicas (V1StatefulSet.spec o)) in
  (Operator.create_fn old "foo" "default" w0).1 = Ok (stored_names "foo") ∧
  (Operator.update_fn new "foo" "default" diff w1).1 = Ok tt ∧
  text w1 = Some ("replicas: 1" +:+ LF +:+ "timer: 30" +:+ LF) ∧
  count w1 = Some (Some 1) ∧
  text w2 = Some ("replicas: None" +:+ LF +:+ "timer: None" +:+ LF) ∧
  count w2 = Some None ∧
  (issued w1 w2).*2 = [Returned; Returned].
Proof. vm_compute. by split_and!. Qed.

(** X10.  When the spec of an update gives the replica count and the server serves
    the requests, the stored StatefulSet gets that count and the stored
    ConfigMap the matching text. *)
Lemma update_fn_propagates n timer image name namespace diff cl rq lg :
  let spec := Spec.Build (Some n) timer image in
  let w' := (Operator.update_fn spec name namespace diff (MkWorld cl [] rq lg)).2 in
  (stateful_sets (cluster w') !! (namespace, sts_name_of name)
     ≫= λ o, Some (V1StatefulSetSpec.replicas (V1StatefulSet.spec o)))
  = (stateful_sets cl !! (namespace, sts_name_of name) ≫= λ _, Some (Some n)) ∧
  (config_maps (cluster w') !! (namespace, cm_name_of name)
     ≫= λ c, V1ConfigMap.data c !! "config.yaml")
  = (config_maps cl !! (namespace, cm_name_of name)
       ≫= λ _, Some ("replicas: " +:+ str_int n +:+ LF +:+
                     "timer: " +:+ str_opt_int timer +:+ LF)).
Proof.
  cbv zeta.
  destruct (update_fn_effect (Spec.Build (Some n) timer image) name namespace diff cl rq lg)
    as [Hcm Hsts].
  rewrite Hcm, Hsts. cbn [Spec.replicas Spec.timer Spec.image]. split.
  - by destruct (stateful_sets cl !! _) as [o|].
  - destruct (config_maps cl !! _) as [c|]; [|done]. cbn.
    apply lookup_insert_eq.
Qed.

(** When the spec gives [replicas] and [timer], an update that changes only
    the image leaves the ConfigMap and the replica count as the create handler
    made them, and puts the new image on the container. *)
Lemma update_fn_image_only_explicit n t image image' name namespace diff rq lg :
  let old := Spec.Build (Some n) (Some t) image in
  let new := Spec.Build (Some n) (Some t) (Some image') in
  let w0 := MkWorld (MkCluster ∅ ∅ ∅) [] rq lg in
  let w1 := (Operator.create_fn old name namespace w0).2 in
  let w2 := (Operator.update_fn new name namespace diff w1).2 in
  config_maps (cluster w2) = config_maps (cluster w1) ∧
  services (cluster w2) = services (cluster w1) ∧
  stateful_sets (cluster w2) !! (namespace, sts_name_of name)
  = Some (desired_stateful_set new name namespace).
Proof.
  cbv zeta.
  destruct (create_fn_served (Spec.Build (Some n) (Some t) image) name namespace
              (MkCluster ∅ ∅ ∅) rq lg) as (lg1 & -> & _).
  cbn [snd services config_maps stateful_sets].
  unfold ensure. rewrite !lookup_empty.
  match goal with |- context [Operator.update_fn ?sp _ _ _ (MkWorld ?c [] ?r ?l)] =>
    destruct (update_fn_served sp name namespace diff c r l) as (lg2 & ->)
  end.
  cbn [snd cluster services config_maps stateful_sets Spec.replicas Spec.timer Spec.image].
  split_and!.
  - rewrite <- alter_lookup_Some with (v := desired_config_map
      (Spec.Build (Some n) (Some t) image) name namespace)
      by apply lookup_insert_eq.
    rewrite insert_insert_eq. by f_equal.
  - done.
  - rewrite lookup_alter_eq, lookup_insert_eq. by cbn [fmap option_fmap option_map].
Qed.

(** ** The server's pass *)

Lemma string_length_app (s t : string) :
  String.length (s +:+ t) = (String.length s + String.length t)%nat.
Proof. induction s as [|a s IH]; simpl; [done|]. by rewrite IH. Qed.

Lemma string_app_inv_tail (s1 s2 t : string) :
  s1 +:+ t = s2 +:+ t → s1 = s2.
Proof.
  revert s2. induction s1 as [|a s1 IH]; intros [|b s2] H; simpl in H.
  - done.
  - apply (f_equal String.length) in H.
    rewrite ?string_length_app in H. simpl in H.
    rewrite ?string_length_app in H. lia.
  - apply (f_equal String.length) in H.
    rewrite ?string_length_app in H. simpl in H.
    rewrite ?string_length_app in H. lia.
  - injection H as -> H. f_equal. by apply IH.
Qed.

(** Two ordinals with the same URL are the same ordinal. *)
Lemma ping_url_inj prefix service i j :
  Server.ping_url prefix i service = Server.ping_url prefix j service → i = j.
Proof.
  unfold Server.ping_url, str_int. intros H.
  apply (inj (String.app "http://")) in H.
  apply (inj (String.app prefix)) in H.
  apply (inj (String.app "-")) in H.
  apply string_app_inv_tail in H.
  by apply (inj pretty) in H.
Qed.

Lemma peers_spec replicas pod_number i :
  i ∈ peers replicas pod_number ↔ 0 ≤ i < replicas ∧ i ≠ pod_number.
Proof.
  unfold peers, py_range. rewrite list_elem_of_filter, elem_of_seqZ. lia.
Qed.

Lemma peers_NoDup replicas pod_number : NoDup (peers replicas pod_number).
Proof. apply NoDup_filter, NoDup_seqZ. Qed.

(** The [for] loop of a pass: it sends one GET per target other than the
    pod's own ordinal, in the order of the targets, and touches nothing but
    the record of GETs and the log. *)
Lemma ping_targets_run (l : list Z) c pp pn sn cf nw st lg :
  ∃ lg',
    for_each l Server.ping_one
      (Server.MkState c pp pn sn cf nw st lg)
    = (Ok tt,
       Server.MkState c pp pn sn cf nw
         (st ++ ((λ i, Server.ping_url pp i sn) <$> filter (λ i, i ≠ pn) l)) lg').
Proof.
  revert st lg. induction l as [|i l IH]; intros st lg.
  - exists lg. simpl. by rewrite app_nil_r.
  - cbn [for_each]. rewrite bind_run. unfold Server.ping_one at 1.
    cbn [Server.pod_number].
    destruct (decide (i = pn)) as [->|Hne].
    + destruct (IH st lg) as (lg' & ->). exists lg'.
      rewrite filter_cons_False by (intros H; by apply H). done.
    + rewrite bind_run. unfold Server.requests_get.
      cbn [Server.pod_prefix Server.service_name Server.network Server.sent
           Server.config Server.pod_number Server.config_file Server.log].
      rewrite filter_cons_True by done. rewrite fmap_cons.
      destruct (nw (Server.ping_url pp i sn)) as [text|e];
        unfold Server.app_logger, modify;
        cbn [Server.pod_prefix Server.service_name Server.network Server.sent
             Server.config Server.pod_number Server.config_file Server.log];
        match goal with |- context [for_each _ _ (Server.MkState _ _ _ _ _ _ ?st' ?lg1)] =>
          destruct (IH st' lg1) as (lg' & ->)
        end; exists lg'; by rewrite <- app_assoc.
Qed.

(** C10. Mesh addressing.  In a pass of the ping loop whose configuration
    gives an integer [replicas], the GETs sent are, in increasing order of
    ordinal, the ping URLs of the ordinals [i] with [0 ≤ i < replicas] other
    than the pod's own, one each; distinct ordinals have distinct URLs.  The
    pod's own ordinal is never among them, whatever the replica count. *)
Theorem ping_pass_peers py_str (s : Server.State) (d : list (string * pyval)) (r : Z) :
  loaded_config s = PyDict d →
  assoc_get "replicas" d = Some (PyInt r) →
  ∃ s',
    Server.ping_pass py_str s = (Ok tt, s') ∧
    Server.sent s'
    = Server.sent s ++
      ((λ i, Server.ping_url (Server.pod_prefix s) i (Server.service_name s))
         <$> peers r (Server.pod_number s)) ∧
    (∀ i, i ∈ peers r (Server.pod_number s) ↔ 0 ≤ i < r ∧ i ≠ Server.pod_number s) ∧
    NoDup (peers r (Server.pod_number s)) ∧
    (Server.pod_number s ∉ peers r (Server.pod_number s)) ∧
    (∀ i j,
       Server.ping_url (Server.pod_prefix s) i (Server.service_name s)
       = Server.ping_url (Server.pod_prefix s) j (Server.service_name s) → i = j).
Proof.
  intros Hcfg Hrep. destruct s as [c pp pn sn cf nw st lg].
  unfold loaded_config in Hcfg. cbn [Server.config_file Server.config] in Hcfg.
  assert (∃ lg0, Server.load_config py_str (Server.MkState c pp pn sn cf nw st lg)
                 = (Ok tt, Server.MkState (PyDict d) pp pn sn cf nw st lg0)) as [lg0 Hload].
  { unfold Server.load_config. cbn [Server.config_file Server.config].
    destruct cf as [v|e].
    - destruct (Server.truthy v); subst; by eexists.
    - subst. by eexists. }
  unfold Server.ping_pass. rewrite bind_run, Hload.
  rewrite bind_run. unfold Server.config_get at 1. cbn [Server.config]. rewrite Hrep.
  change (default PyNone (Some (PyInt r))) with (PyInt r).
  rewrite bind_run. unfold Server.config_get at 1. cbn [Server.config].
  rewrite bind_run. cbn [Server.range0]. unfold mret, M_ret, ret.
  destruct (ping_targets_run (py_range 0 r) (PyDict d) pp pn sn cf nw st lg0)
    as (lg' & ->).
  eexists. split; [reflexivity|].
  cbn [Server.sent Server.pod_prefix Server.service_name Server.pod_number].
  split_and!.
  - done.
  - apply peers_spec.
  - apply peers_NoDup.
  - rewrite peers_spec. lia.
  - apply ping_url_inj.
Qed.

(** With three replicas, the pod of ordinal 1 pings ordinals 0 and 2. *)
Lemma ping_pass_peers_witness :
  loaded_config
    (Server.MkState (PyDict [("replicas", PyInt 0); ("timer", PyInt 6000)])
       "foo-sts" 1 "foo-svc"
       (inl (PyDict [("replicas", PyInt 3); ("timer", PyInt 30)]))
       (λ _, inl "pong") [] [])
  = PyDict [("replicas", PyInt 3); ("timer", PyInt 30)] ∧
  assoc_get "replicas" [("replicas", PyInt 3); ("timer", PyInt 30)] = Some (PyInt 3) ∧
  peers 3 1 = [0; 2] ∧
  ∃ s',
    Server.ping_pass (λ _, "")
      (Server.MkState (PyDict [("replicas", PyInt 0); ("timer", PyInt 6000)])
         "foo-sts" 1 "foo-svc"
         (inl (PyDict [("replicas", PyInt 3); ("timer", PyInt 30)]))
         (λ _, inl "pong") [] [])
    = (Ok tt, s') ∧
    Server.sent s' = ["http://foo-sts-0.foo-svc/ping"; "http://foo-sts-2.foo-svc/ping"].
Proof.
  split; [reflexivity|]. split; [reflexivity|]. split; [reflexivity|].
  destruct (ping_pass_peers (λ _, "")
              (Server.MkState (PyDict [("replicas", PyInt 0); ("timer", PyInt 6000)])
                 "foo-sts" 1 "foo-svc"
                 (inl (PyDict [("replicas", PyInt 3); ("timer", PyInt 30)]))
                 (λ _, inl "pong") [] [])
              [("replicas", PyInt 3); ("timer", PyInt 30)] 3
              eq_refl eq_refl) as (s' & Hrun & Hsent & _).
  exists s'. split; [exact Hrun|]. rewrite Hsent. reflexivity.
Defined.

(** ** What the handlers leave alone *)

(** A request either leaves the store as it is or is served. *)
Lemma api_effect c w :
  cluster (api c w).2 = cluster w ∨ serve c (cluster w) = Ok (cluster (api c w).2).
Proof.
  unfold api. destruct (faults w) as [|[e|] fs]; simpl;
    destruct (serve c (cluster w)); simpl; auto.
Qed.

(** So does a [try] block around it whose other statements only log. *)
Lemma try_api_effect c (k : unit → M World ApiException.t unit)
    (h : ApiException.t → M World ApiException.t unit) w :
  (∀ u w0, cluster (k u w0).2 = cluster w0) →
  (∀ e w0, cluster (h e w0).2 = cluster w0) →
  cluster (try_except (api c ≫= k) h w).2 = cluster w ∨
  serve c (cluster w) = Ok (cluster (try_except (api c ≫= k) h w).2).
Proof.
  intros Hk Hh. unfold try_except. rewrite bind_run.
  pose proof (api_effect c w) as Hc.
  destruct (api c w) as [[[]|e] w1]; cbn [snd] in Hc.
  - specialize (Hk tt w1). destruct (k tt w1) as [[[]|e] w2]; cbn [snd] in *.
    + by rewrite Hk.
    + rewrite Hh, Hk. done.
  - by rewrite Hh.
Qed.

Lemma emit_cluster k l msg w : cluster (emit k l msg w).2 = cluster w.
Proof. reflexivity. Qed.

Lemma raise_cluster (e : ApiException.t) (w : World) :
  cluster (raise (A := unit) e w).2 = cluster w.
Proof. reflexivity. Qed.

(** The three kinds of block the handlers are made of. *)
Lemma create_step_effect c m1 m2 w :
  let step := try_except (api c;; emit KopfLogger INFO m1)
    (λ e, if decide (ApiException.status e = 409)
          then emit KopfLogger INFO m2 else raise e) in
  cluster (step w).2 = cluster w ∨ serve c (cluster w) = Ok (cluster (step w).2).
Proof.
  cbv zeta. apply try_api_effect; [done|].
  intros e w0. by case_decide.
Qed.

Lemma patch_step_effect c m1 m2 w :
  let step := try_except (api c;; emit RootLogging INFO m1)
    (λ e, emit RootLogging ERROR (m2 +:+ ApiException.str e)) in
  (step w).1 = Ok tt ∧
  (cluster (step w).2 = cluster w ∨ serve c (cluster w) = Ok (cluster (step w).2)).
Proof.
  cbv zeta. split.
  - destruct (patch_step_run c m1 m2 w) as (o & cl' & ->). done.
  - by apply try_api_effect.
Qed.

Lemma delete_step_effect c n w :
  let step := try_except (api c;; emit KopfLogger INFO ("Deleted " +:+ n))
    (λ e, if decide (ApiException.status e = 404)
          then emit KopfLogger INFO (n +:+ " already deleted")
          else emit KopfLogger ERROR
                 ("Failed to delete " +:+ n +:+ ": " +:+ ApiException.str e)) in
  (step w).1 = Ok tt ∧
  (cluster (step w).2 = cluster w ∨ serve c (cluster w) = Ok (cluster (step w).2)).
Proof.
  cbv zeta. split.
  - destruct (delete_step_run c n w) as (o & cl' & ->). done.
  - apply try_api_effect; [done|]. intros e w0. by case_decide.
Qed.

(** What being served means for each request of the handlers. *)
Lemma created_service name namespace cl cl' :
  cl' = cl ∨
  serve (create_namespaced_service namespace (desired_service name namespace)) cl = Ok cl' →
  (services cl' = services cl ∨
   services cl' = ensure (namespace, svc_name_of name) (desired_service name namespace)
                    (services cl)) ∧
  config_maps cl' = config_maps cl ∧ stateful_sets cl' = stateful_sets cl.
Proof.
  intros [->|H]; [auto|]. rewrite serve_create_service in H. unfold ensure.
  destruct (services cl !! _); [done|]. injection H as <-. auto.
Qed.

Lemma created_config_map spec name namespace cl cl' :
  cl' = cl ∨
  serve (create_namespaced_config_map namespace (desired_config_map spec name namespace)) cl
  = Ok cl' →
  services cl' = services cl ∧
  (config_maps cl' = config_maps cl ∨
   config_maps cl' = ensure (namespace, cm_name_of name)
                       (desired_config_map spec name namespace) (config_maps cl)) ∧
  stateful_sets cl' = stateful_sets cl.
Proof.
  intros [->|H]; [auto|]. rewrite serve_create_config_map in H. unfold ensure.
  destruct (config_maps cl !! _); [done|]. injection H as <-. auto.
Qed.

Lemma created_stateful_set spec name namespace cl cl' :
  cl' = cl ∨
  serve (create_namespaced_stateful_set namespace
           (desired_stateful_set spec name namespace)) cl = Ok cl' →
  services cl' = services cl ∧ config_maps cl' = config_maps cl ∧
  (stateful_sets cl' = stateful_sets cl ∨
   stateful_sets cl' = ensure (namespace, sts_name_of name)
                         (desired_stateful_set spec name namespace) (stateful_sets cl)).
Proof.
  intros [->|H]; [auto|]. rewrite serve_create_stateful_set in H. unfold ensure.
  destruct (stateful_sets cl !! _); [done|]. injection H as <-. auto.
Qed.

Lemma patched_served_stateful_set n ns replicas image cl cl' :
  cl' = cl ∨
  serve (patch_namespaced_stateful_set n ns (ss_patch replicas image)) cl = Ok cl' →
  services cl' = services cl ∧ config_maps cl' = config_maps cl ∧
  (stateful_sets cl' = stateful_sets cl ∨
   stateful_sets cl' = alter (patched_stateful_set replicas image) (ns, n)
                         (stateful_sets cl)).
Proof.
  intros [->|H]; [auto|]. rewrite serve_patch_stateful_set in H.
  destruct (stateful_sets cl !! _); [|done]. injection H as <-. auto.
Qed.

Lemma patched_served_config_map n ns replicas timer cl cl' :
  cl' = cl ∨
  serve (patch_namespaced_config_map n ns (cm_patch replicas timer)) cl = Ok cl' →
  services cl' = services cl ∧
  (config_maps cl' = config_maps cl ∨
   config_maps cl' = alter (patched_config_map (cm_text replicas timer)) (ns, n)
                       (config_maps cl)) ∧
  stateful_sets cl' = stateful_sets cl.
Proof.
  intros [->|H]; [auto|]. rewrite serve_patch_config_map in H.
  destruct (config_maps cl !! _); [|done]. injection H as <-. auto.
Qed.

Lemma deleted_served c cl cl' :
  cl' = cl ∨ serve c cl = Ok cl' →
  match c with
  | delete_namespaced_service n ns =>
      (services cl' = services cl ∨ services cl' = delete (ns, n) (services cl)) ∧
      config_maps cl' = config_maps cl ∧ stateful_sets cl' = stateful_sets cl
  | delete_namespaced_stateful_set n ns =>
      services cl' = services cl ∧ config_maps cl' = config_maps cl ∧
      (stateful_sets cl' = stateful_sets cl ∨
       stateful_sets cl' = delete (ns, n) (stateful_sets cl))
  | delete_namespaced_config_map n ns =>
      services cl' = services cl ∧
      (config_maps cl' = config_maps cl ∨
       config_maps cl' = delete (ns, n) (config_maps cl)) ∧
      stateful_sets cl' = stateful_sets cl
  | _ => True
  end.
Proof.
  intros [->|H]; [by destruct c; auto|].
  pose proof (serve_delete c cl) as Hs.
  destruct c; try done; rewrite Hs in H;
    destruct (_ !! _); try done; injection H as <-; auto.
Qed.

Ltac first_block tac :=
  match goal with
  | |- context [try_except (api ?c ≫= λ _, emit _ _ ?m1)
                  (λ x, if _ then emit _ _ ?m2 else raise _) ?w0] =>
      tac (create_step_effect c m1 m2 w0)
  | |- context [try_except (api ?c ≫= λ _, emit _ _ ?m1)
                  (λ x, emit _ _ (?m2 +:+ _)) ?w0] =>
      tac (patch_step_effect c m1 m2 w0)
  end.

(** The create handler in any world: each store is as it was, or as it was
    with the resource's object added under its key. *)
Lemma create_fn_cluster spec name namespace w r w' :
  Operator.create_fn spec name namespace w = (r, w') →
  (services (cluster w') = services (cluster w) ∨
   services (cluster w')
   = ensure (namespace, svc_name_of name) (desired_service name namespace)
       (services (cluster w))) ∧
  (config_maps (cluster w') = config_maps (cluster w) ∨
   config_maps (cluster w')
   = ensure (namespace, cm_name_of name) (desired_config_map spec name namespace)
       (config_maps (cluster w))) ∧
  (stateful_sets (cluster w') = stateful_sets (cluster w) ∨
   stateful_sets (cluster w')
   = ensure (namespace, sts_name_of name) (desired_stateful_set spec name namespace)
       (stateful_sets (cluster w))).
Proof.
  destruct w as [cl fs rq lg]. cbn [cluster].
  unfold Operator.create_fn.
  rewrite bind_run. unfold emit at 1, modify at 1. cbv beta iota zeta.
  cbn [cluster faults requests log].
  fold (svc_name_of name) (cm_name_of name) (sts_name_of name).
  fold (desired_service name namespace).
  fold (desired_config_map spec name namespace).
  fold (desired_stateful_set spec name namespace).
  rewrite bind_run.
  first_block ltac:(fun L => pose proof L as H1). cbv zeta in H1.
  apply created_service in H1. cbn [cluster] in H1.
  destruct (try_except _ _ _) as [[[]|e] w1]; cbn [snd] in H1;
    destruct H1 as (Hs & Hc & Ht); cbv beta iota;
    [|intros [= <- <-]; rewrite Hc, Ht; auto].
  rewrite bind_run.
  first_block ltac:(fun L => pose proof L as H2). cbv zeta in H2.
  apply created_config_map in H2.
  destruct (try_except _ _ _) as [[[]|e] w2]; cbn [snd] in H2;
    destruct H2 as (Hs2 & Hc2 & Ht2); cbv beta iota;
    [|intros [= <- <-]; rewrite Hs2, Ht2, Ht; rewrite Hc in Hc2; auto].
  rewrite bind_run.
  first_block ltac:(fun L => pose proof L as H3). cbv zeta in H3.
  apply created_stateful_set in H3.
  destruct (try_except _ _ _) as [[[]|e] w3]; cbn [snd] in H3;
    destruct H3 as (Hs3 & Hc3 & Ht3); cbv beta iota;
    intros [= <- <-];
    rewrite Hs3, Hc3, Hs2; rewrite Ht2, Ht in Ht3; rewrite Hc in Hc2; auto.
Qed.

(** The update handler in any world: the Services are as they were, and each
    of the other two stores is as it was or as it was with the patch applied
    under the resource's key. *)
Lemma update_fn_cluster spec name namespace diff w r w' :
  Operator.update_fn spec name namespace diff w = (r, w') →
  services (cluster w') = services (cluster w) ∧
  (config_maps (cluster w') = config_maps (cluster w) ∨
   config_maps (cluster w')
   = alter (patched_config_map (cm_text (Spec.replicas spec) (Spec.timer spec)))
       (namespace, cm_name_of name) (config_maps (cluster w))) ∧
  (stateful_sets (cluster w') = stateful_sets (cluster w) ∨
   stateful_sets (cluster w')
   = alter (patched_stateful_set (Spec.replicas spec) (Spec.image spec))
       (namespace, sts_name_of name) (stateful_sets (cluster w))).
Proof.
  destruct w as [cl fs rq lg]. cbn [cluster].
  unfold Operator.update_fn. cbv zeta.
  rewrite bind_run, log_changes_run. unfold Operator.CONFIG_KEY.
  fold (ss_patch (Spec.replicas spec) (Spec.image spec)).
  fold (cm_text (Spec.replicas spec) (Spec.timer spec)).
  fold (cm_patch (Spec.replicas spec) (Spec.timer spec)).
  fold (sts_name_of name) (cm_name_of name).
  rewrite bind_run.
  first_block ltac:(fun L => pose proof L as H1). cbv zeta in H1.
  destruct H1 as [Hr1 H1]. apply patched_served_stateful_set in H1. cbn [cluster] in H1.
  destruct (try_except _ _ _) as [r1 w1]; cbn [fst snd] in Hr1, H1. subst r1.
  destruct H1 as (Hs & Hc & Ht). cbv beta iota.
  first_block ltac:(fun L => pose proof L as H2). cbv zeta in H2.
  destruct H2 as [_ H2]. apply patched_served_config_map in H2.
  destruct H2 as (Hs2 & Hc2 & Ht2).
  intros Hrun. rewrite Hrun in *. cbn [snd] in *.
  rewrite Hs2, Ht2, Hs. rewrite Hc in Hc2. auto.
Qed.

(** The delete handler in any world: each store is as it was, or as it was
    with the resource's key removed. *)
Lemma delete_fn_cluster spec name namespace w r w' :
  Operator.delete_fn spec name namespace w = (r, w') →
  (services (cluster w') = services (cluster w) ∨
   services (cluster w') = delete (namespace, svc_name_of name) (services (cluster w))) ∧
  (config_maps (cluster w') = config_maps (cluster w) ∨
   config_maps (cluster w') = delete (namespace, cm_name_of name) (config_maps (cluster w))) ∧
  (stateful_sets (cluster w') = stateful_sets (cluster w) ∨
   stateful_sets (cluster w')
   = delete (namespace, sts_name_of name) (stateful_sets (cluster w))).
Proof.
  unfold Operator.delete_fn. cbv zeta. cbn [for_each].
  fold (svc_name_of name) (sts_name_of name) (cm_name_of name).
  rewrite bind_run.
  pose proof (delete_step_effect
                (delete_namespaced_service (svc_name_of name) namespace)
                (svc_name_of name) w) as [Hr1 H1].
  apply deleted_served in H1.
  destruct (try_except _ _ w) as [r1 w1]; cbn [fst snd] in Hr1, H1. subst r1.
  destruct H1 as (Hs & Hc & Ht). cbv beta iota.
  rewrite bind_run.
  pose proof (delete_step_effect
                (delete_namespaced_stateful_set (sts_name_of name) namespace)
                (sts_name_of name) w1) as [Hr2 H2].
  apply deleted_served in H2.
  destruct (try_except _ _ w1) as [r2 w2]; cbn [fst snd] in Hr2, H2. subst r2.
  destruct H2 as (Hs2 & Hc2 & Ht2). cbv beta iota.
  rewrite bind_run.
  pose proof (delete_step_effect
                (delete_namespaced_config_map (cm_name_of name) namespace)
                (cm_name_of name) w2) as [Hr3 H3].
  apply deleted_served in H3.
  destruct (try_except _ _ w2) as [r3 w3]; cbn [fst snd] in Hr3, H3. subst r3.
  destruct H3 as (Hs3 & Hc3 & Ht3). cbv beta iota.
  intros [= <- <-].
  rewrite Hs3, Ht3, Hs2. rewrite Hc2, Hc in Hc3. rewrite Ht in Ht2. auto.
Qed.

Lemma ensure_subseteq {V} (k : string * string) (v : V) (m : gmap (string * string) V) :
  m ⊆ ensure k v m.
Proof.
  unfold ensure. destruct (m !! k) eqn:Hk; [done|]. by apply insert_subseteq.
Qed.

Lemma ensure_ensure {V} (k : string * string) (v : V) (m m' : gmap (string * string) V) :
  m' = m ∨ m' = ensure k v m → ensure k v m' = ensure k v m.
Proof.
  intros [->| ->]; [done|]. apply ensure_bound, ensure_lookup.
Qed.

Lemma ensure_lookup_ne {V} (k k' : string * string) (v : V)
    (m : gmap (string * string) V) :
  k ≠ k' → ensure k v m !! k' = m !! k'.
Proof.
  intros Hne. unfold ensure. destruct (m !! k); [done|]. by rewrite lookup_insert_ne.
Qed.

Lemma delete_ensure {V} (k : string * string) (v : V) (m : gmap (string * string) V) :
  delete k (ensure k v m) = delete k m.
Proof.
  unfold ensure. destruct (m !! k) eqn:Hk; [done|].
  apply map_eq. intros k'. destruct (decide (k = k')) as [<-|Hne].
  - by rewrite !lookup_delete_eq.
  - by rewrite !lookup_delete_ne, lookup_insert_ne.
Qed.

(** X1.  The create handler never overwrites and never removes: under any
    schedule of failures, every object stored before is stored unchanged
    afterwards, and whatever has been added is the resource's own manifest
    under its derived key. *)
Theorem create_fn_never_overwrites spec name namespace w :
  let cl := cluster w in
  let cl' := cluster (Operator.create_fn spec name namespace w).2 in
  services cl ⊆ services cl' ∧
  config_maps cl ⊆ config_maps cl' ∧
  stateful_sets cl ⊆ stateful_sets cl' ∧
  services cl'
    ⊆ ensure (namespace, svc_name_of name) (desired_service name namespace) (services cl) ∧
  config_maps cl'
    ⊆ ensure (namespace, cm_name_of name) (desired_config_map spec name namespace)
        (config_maps cl) ∧
  stateful_sets cl'
    ⊆ ensure (namespace, sts_name_of name) (desired_stateful_set spec name namespace)
        (stateful_sets cl).
Proof.
  cbv zeta.
  destruct (Operator.create_fn spec name namespace w) as [r w'] eqn:Hrun.
  destruct (create_fn_cluster _ _ _ _ _ _ Hrun) as (Hs & Hc & Ht). cbn [snd].
  split_and!.
  - destruct Hs as [->| ->]; [done|apply ensure_subseteq].
  - destruct Hc as [->| ->]; [done|apply ensure_subseteq].
  - destruct Ht as [->| ->]; [done|apply ensure_subseteq].
  - destruct Hs as [->| ->]; [apply ensure_subseteq|done].
  - destruct Hc as [->| ->]; [apply ensure_subseteq|done].
  - destruct Ht as [->| ->]; [apply ensure_subseteq|done].
Qed.

(** X2.  Recovery after a partial create.  Let the create handler run under any
    schedule of failures, so that it may stop anywhere or be answered
    anything.  When it is then run again and the server serves every request,
    it returns normally, and the cluster is the one a single served run from
    the original state would have left. *)
Theorem create_fn_recovers spec name namespace w :
  let w1 := (Operator.create_fn spec name namespace w).2 in
  let retry := Operator.create_fn spec name namespace
                 (MkWorld (cluster w1) [] (requests w1) (log w1)) in
  retry.1 = Ok (stored_names name) ∧
  cluster retry.2
  = MkCluster
      (ensure (namespace, svc_name_of name) (desired_service name namespace)
         (services (cluster w)))
      (ensure (namespace, cm_name_of name) (desired_config_map spec name namespace)
         (config_maps (cluster w)))
      (ensure (namespace, sts_name_of name) (desired_stateful_set spec name namespace)
         (stateful_sets (cluster w))) ∧
  cluster retry.2
  = cluster (Operator.create_fn spec name namespace
               (MkWorld (cluster w) [] (requests w) (log w))).2.
Proof.
  cbv zeta.
  destruct (Operator.create_fn spec name namespace w) as [r w1] eqn:Hrun.
  destruct (create_fn_cluster _ _ _ _ _ _ Hrun) as (Hs & Hc & Ht). cbn [snd].
  destruct (create_fn_served spec name namespace (cluster w1) (requests w1) (log w1))
    as (lg1 & -> & _).
  destruct (create_fn_served spec name namespace (cluster w) (requests w) (log w))
    as (lg2 & -> & _).
  cbn [fst snd cluster].
  rewrite (ensure_ensure _ _ _ _ Hs), (ensure_ensure _ _ _ _ Hc), (ensure_ensure _ _ _ _ Ht).
  done.
Qed.

(** X3.  The update handler never creates and never deletes: under any schedule of
    failures the Services are untouched, the ConfigMaps and StatefulSets are
    bound under the same keys as before, and no key but the resource's own
    has changed its object. *)
Theorem update_fn_frame spec name namespace diff w :
  let cl := cluster w in
  let cl' := cluster (Operator.update_fn spec name namespace diff w).2 in
  services cl' = services cl ∧
  dom (config_maps cl') = dom (config_maps cl) ∧
  dom (stateful_sets cl') = dom (stateful_sets cl) ∧
  (∀ k, k ≠ (namespace, cm_name_of name) →
        config_maps cl' !! k = config_maps cl !! k) ∧
  (∀ k, k ≠ (namespace, sts_name_of name) →
        stateful_sets cl' !! k = stateful_sets cl !! k).
Proof.
  cbv zeta.
  destruct (Operator.update_fn spec name namespace diff w) as [r w'] eqn:Hrun.
  destruct (update_fn_cluster _ _ _ _ _ _ _ Hrun) as (Hs & Hc & Ht). cbn [snd].
  split_and!.
  - done.
  - destruct Hc as [->| ->]; [done|apply dom_alter_L].
  - destruct Ht as [->| ->]; [done|apply dom_alter_L].
  - intros k Hk. destruct Hc as [->| ->]; [done|]. by rewrite lookup_alter_ne.
  - intros k Hk. destruct Ht as [->| ->]; [done|]. by rewrite lookup_alter_ne.
Qed.

(** X4.  The delete handler removes nothing but the resource's three objects and
    adds nothing, under any schedule of failures: each store afterwards lies
    between the store without the resource's key and the store as it was. *)
Theorem delete_fn_frame spec name namespace w :
  let cl := cluster w in
  let cl' := cluster (Operator.delete_fn spec name namespace w).2 in
  services cl' ⊆ services cl ∧
  config_maps cl' ⊆ config_maps cl ∧
  stateful_sets cl' ⊆ stateful_sets cl ∧
  delete (namespace, svc_name_of name) (services cl) ⊆ services cl' ∧
  delete (namespace, cm_name_of name) (config_maps cl) ⊆ config_maps cl' ∧
  delete (namespace, sts_name_of name) (stateful_sets cl) ⊆ stateful_sets cl'.
Proof.
  cbv zeta.
  destruct (Operator.delete_fn spec name namespace w) as [r w'] eqn:Hrun.
  destruct (delete_fn_cluster _ _ _ _ _ _ Hrun) as (Hs & Hc & Ht). cbn [snd].
  split_and!.
  - destruct Hs as [->| ->]; [done|apply delete_subseteq].
  - destruct Hc as [->| ->]; [done|apply delete_subseteq].
  - destruct Ht as [->| ->]; [done|apply delete_subseteq].
  - destruct Hs as [->| ->]; [apply delete_subseteq|done].
  - destruct Hc as [->| ->]; [apply delete_subseteq|done].
  - destruct Ht as [->| ->]; [apply delete_subseteq|done].
Qed.

(** X5.  Create then delete, with every request served: the delete undoes the
    create.  The cluster is left as a delete alone would have left it, so a
    cluster that held none of the three objects is back as it was. *)
Theorem create_then_delete spec name namespace cl rq lg :
  let w0 := MkWorld cl [] rq lg in
  let w1 := (Operator.create_fn spec name namespace w0).2 in
  let w2 := (Operator.delete_fn spec name namespace w1).2 in
  (Operator.delete_fn spec name namespace w1).1 = Ok tt ∧
  cluster w2 = cluster (Operator.delete_fn spec name namespace w0).2 ∧
  (issued w1 w2).*2 = [Returned; Returned; Returned] ∧
  (services cl !! (namespace, svc_name_of name) = None →
   config_maps cl !! (namespace, cm_name_of name) = None →
   stateful_sets cl !! (namespace, sts_name_of name) = None →
   cluster w2 = cl).
Proof.
  cbv zeta.
  destruct (create_fn_served spec name namespace cl rq lg) as (lg1 & -> & _).
  cbn [snd]. rewrite !delete_fn_served. cbn [fst snd cluster services config_maps stateful_sets].
  rewrite !delete_ensure. split_and!.
  - done.
  - done.
  - erewrite issued_app by (cbn [requests]; reflexivity).
    unfold delete_requests. cbn [zip zip_with fmap list_fmap snd].
    destruct (ensure_lookup (namespace, svc_name_of name)
                (desired_service name namespace) (services cl)) as [? ->].
    destruct (ensure_lookup (namespace, cm_name_of name)
                (desired_config_map spec name namespace) (config_maps cl)) as [? ->].
    destruct (ensure_lookup (namespace, sts_name_of name)
                (desired_stateful_set spec name namespace) (stateful_sets cl)) as [? ->].
    done.
  - intros Hs Hc Ht. rewrite !delete_id by done. by destruct cl.
Qed.

(** *** Other resources *)

Lemma derived_key_ne (suffix : string) (name name' namespace namespace' : string) :
  (namespace', name') ≠ (namespace, name) →
  (namespace, name +:+ suffix) ≠ (namespace', name' +:+ suffix).
Proof.
  intros Hne [= -> H]. apply Hne. f_equal. symmetry.
  by apply string_app_inv_tail in H.
Qed.

(** X6.  No handler touches the objects of another resource: for a resource of
    another name or another namespace, what is bound under its three derived
    keys is the same after the create, the update and the delete handler as
    before, under any schedule of failures. *)
Theorem handlers_leave_other_resources spec name namespace diff name' namespace' w :
  (namespace', name') ≠ (namespace, name) →
  let same cl' :=
    services cl' !! (namespace', svc_name_of name')
      = services (cluster w) !! (namespace', svc_name_of name') ∧
    config_maps cl' !! (namespace', cm_name_of name')
      = config_maps (cluster w) !! (namespace', cm_name_of name') ∧
    stateful_sets cl' !! (namespace', sts_name_of name')
      = stateful_sets (cluster w) !! (namespace', sts_name_of name') in
  same (cluster (Operator.create_fn spec name namespace w).2) ∧
  same (cluster (Operator.update_fn spec name namespace diff w).2) ∧
  same (cluster (Operator.delete_fn spec name namespace w).2).
Proof.
  intros Hne. cbv zeta.
  pose proof (derived_key_ne "-svc" _ _ _ _ Hne) as Ksvc.
  pose proof (derived_key_ne "-cm" _ _ _ _ Hne) as Kcm.
  pose proof (derived_key_ne "-sts" _ _ _ _ Hne) as Ksts.
  fold (svc_name_of name) (svc_name_of name') in Ksvc.
  fold (cm_name_of name) (cm_name_of name') in Kcm.
  fold (sts_name_of name) (sts_name_of name') in Ksts.
  split_and!.
  - destruct (Operator.create_fn spec name namespace w) as [r w'] eqn:Hrun; cbn [snd].
    destruct (create_fn_cluster _ _ _ _ _ _ Hrun) as ([->| ->] & _); cbn [snd];
      [done|by apply ensure_lookup_ne].
  - destruct (Operator.create_fn spec name namespace w) as [r w'] eqn:Hrun; cbn [snd].
    destruct (create_fn_cluster _ _ _ _ _ _ Hrun) as (_ & [->| ->] & _); cbn [snd];
      [done|by apply ensure_lookup_ne].
  - destruct (Operator.create_fn spec name namespace w) as [r w'] eqn:Hrun; cbn [snd].
    destruct (create_fn_cluster _ _ _ _ _ _ Hrun) as (_ & _ & [->| ->]); cbn [snd];
      [done|by apply ensure_lookup_ne].
  - destruct (Operator.update_fn spec name namespace diff w) as [r w'] eqn:Hrun; cbn [snd].
    by destruct (update_fn_cluster _ _ _ _ _ _ _ Hrun) as (-> & _).
  - destruct (Operator.update_fn spec name namespace diff w) as [r w'] eqn:Hrun; cbn [snd].
    destruct (update_fn_cluster _ _ _ _ _ _ _ Hrun) as (_ & [->| ->] & _); cbn [snd];
      [done|by apply lookup_alter_ne].
  - destruct (Operator.update_fn spec name namespace diff w) as [r w'] eqn:Hrun; cbn [snd].
    destruct (update_fn_cluster _ _ _ _ _ _ _ Hrun) as (_ & _ & [->| ->]); cbn [snd];
      [done|by apply lookup_alter_ne].
  - destruct (Operator.delete_fn spec name namespace w) as [r w'] eqn:Hrun; cbn [snd].
    destruct (delete_fn_cluster _ _ _ _ _ _ Hrun) as ([->| ->] & _); cbn [snd];
      [done|by apply lookup_delete_ne].
  - destruct (Operator.delete_fn spec name namespace w) as [r w'] eqn:Hrun; cbn [snd].
    destruct (delete_fn_cluster _ _ _ _ _ _ Hrun) as (_ & [->| ->] & _); cbn [snd];
      [done|by apply lookup_delete_ne].
  - destruct (Operator.delete_fn spec name namespace w) as [r w'] eqn:Hrun; cbn [snd].
    destruct (delete_fn_cluster _ _ _ _ _ _ Hrun) as (_ & _ & [->| ->]); cbn [snd];
      [done|by apply lookup_delete_ne].
Qed.

(** Deleting the resource [bar] on a cluster that holds the objects of [foo]
    leaves them bound. *)
Lemma handlers_leave_other_resources_witness :
  ("default", "foo") ≠ ("default", "bar") ∧
  is_Some
    (services
       (cluster
          (Operator.delete_fn (Spec.Build None None None) "bar" "default"
             (Operator.create_fn (Spec.Build None None None) "foo" "default"
                (MkWorld (MkCluster ∅ ∅ ∅) [] [] [])).2).2)
     !! ("default", svc_name_of "foo")).
Proof.
  split; [discriminate|].
  destruct (handlers_leave_other_resources (Spec.Build None None None)
              "bar" "default" [] "foo" "default"
              (Operator.create_fn (Spec.Build None None None) "foo" "default"
                 (MkWorld (MkCluster ∅ ∅ ∅) [] [] [])).2
              ltac:(discriminate)) as (_ & _ & Hd & _).
  rewrite Hd. vm_compute. eauto.
Defined.

(** *** Repeating and combining the handlers *)

Lemma set_main_image_idemp image c :
  set_main_image image (set_main_image image c) = set_main_image image c.
Proof.
  unfold set_main_image. destruct (decide (V1Container.name c = "main")) as [H|H].
  - cbn [V1Container.name]. by rewrite decide_True.
  - by rewrite decide_False.
Qed.

Lemma set_main_image_name image c :
  V1Container.name (set_main_image image c) = V1Container.name c.
Proof. unfold set_main_image. by case_decide. Qed.

Lemma existsb_main_set image cs :
  existsb (λ c, bool_decide (V1Container.name c = "main")) (set_main_image image <$> cs)
  = existsb (λ c, bool_decide (V1Container.name c = "main")) cs.
Proof.
  induction cs as [|c cs IH]; [done|].
  rewrite fmap_cons. cbn [existsb]. by rewrite IH, set_main_image_name.
Qed.

Lemma set_main_image_absent image cs :
  existsb (λ c, bool_decide (V1Container.name c = "main")) cs = false →
  set_main_image image <$> cs = cs.
Proof.
  induction cs as [|c cs IH]; [done|]. cbn [existsb].
  intros [Hc Hcs]%orb_false_iff. rewrite fmap_cons, IH by done.
  unfold set_main_image. apply bool_decide_eq_false in Hc. by rewrite decide_False.
Qed.

Lemma patched_containers_idemp image cs :
  patched_containers image (patched_containers image cs) = patched_containers image cs.
Proof.
  unfold patched_containers.
  destruct (existsb _ cs) eqn:Hex.
  - rewrite existsb_main_set, Hex.
    rewrite <- list_fmap_compose. apply list_fmap_ext.
    intros ? c _. apply set_main_image_idemp.
  - rewrite existsb_app. cbn [existsb V1Container.name].
    rewrite bool_decide_eq_true_2 by done. cbn [orb]. rewrite orb_true_r.
    rewrite fmap_app, set_main_image_absent by done.
    cbn [fmap list_fmap]. unfold set_main_image.
    cbn [V1Container.name]. rewrite decide_True by done. reflexivity.
Qed.

Lemma patched_stateful_set_idemp replicas image o :
  patched_stateful_set replicas image (patched_stateful_set replicas image o)
  = patched_stateful_set replicas image o.
Proof.
  unfold patched_stateful_set at 1.
  cbn [patched_stateful_set V1StatefulSet.metadata V1StatefulSet.spec
       V1StatefulSetSpec.template V1StatefulSetSpec.service_name
       V1StatefulSetSpec.selector V1PodTemplateSpec.spec V1PodTemplateSpec.metadata
       V1PodSpec.containers V1PodSpec.volumes].
  by rewrite patched_containers_idemp.
Qed.

Lemma patched_config_map_idemp text c :
  patched_config_map text (patched_config_map text c) = patched_config_map text c.
Proof.
  unfold patched_config_map. cbn [V1ConfigMap.metadata V1ConfigMap.data].
  by rewrite insert_insert_eq.
Qed.

Lemma alter_idemp {V} (f : V → V) (k : string * string) (m : gmap (string * string) V) :
  (∀ v, f (f v) = f v) → alter f k (alter f k m) = alter f k m.
Proof.
  intros Hf. apply map_eq. intros k'. destruct (decide (k = k')) as [<-|Hne].
  - rewrite !lookup_alter_eq. destruct (m !! k); [|done]. cbn. by rewrite Hf.
  - by rewrite !lookup_alter_ne.
Qed.

(** X7.  The update handler is idempotent on the cluster: with every request
    served, running it a second time for the same spec leaves the cluster as
    the first run left it, whatever the cluster held. *)
Theorem update_fn_idempotent spec name namespace diff diff' cl rq lg :
  let w1 := (Operator.update_fn spec name namespace diff (MkWorld cl [] rq lg)).2 in
  let w2 := (Operator.update_fn spec name namespace diff' w1).2 in
  (Operator.update_fn spec name namespace diff' w1).1 = Ok tt ∧
  cluster w2 = cluster w1.
Proof.
  cbv zeta.
  destruct (update_fn_served spec name namespace diff cl rq lg) as (lg1 & ->).
  cbn [snd].
  match goal with |- context [Operator.update_fn _ _ _ _ (MkWorld ?c [] ?r ?l)] =>
    destruct (update_fn_served spec name namespace diff' c r l) as (lg2 & ->)
  end.
  cbn [fst snd cluster services config_maps stateful_sets]. split; [done|].
  rewrite alter_idemp by apply patched_config_map_idemp.
  rewrite alter_idemp by apply patched_stateful_set_idemp. done.
Qed.

(** X8.  An update by a spec that gives all three fields brings the objects of a
    resource to what a create from that spec makes, whatever spec they were
    created from: on a cluster that held neither the ConfigMap nor the
    StatefulSet, create from [old] then update by the new spec leaves the
    cluster a create from the new spec leaves, every request being served. *)
Theorem update_fn_converges old n t image name namespace diff cl rq lg :
  config_maps cl !! (namespace, cm_name_of name) = None →
  stateful_sets cl !! (namespace, sts_name_of name) = None →
  let new := Spec.Build (Some n) (Some t) (Some image) in
  let w0 := MkWorld cl [] rq lg in
  let w1 := (Operator.create_fn old name namespace w0).2 in
  cluster (Operator.update_fn new name namespace diff w1).2
  = cluster (Operator.create_fn new name namespace w0).2.
Proof.
  intros Hcm Hsts. cbv zeta.
  destruct (create_fn_served old name namespace cl rq lg) as (lg1 & -> & _).
  destruct (create_fn_served (Spec.Build (Some n) (Some t) (Some image))
              name namespace cl rq lg) as (lg2 & -> & _).
  cbn [snd].
  match goal with |- context [Operator.update_fn ?sp _ _ _ (MkWorld ?c [] ?r ?l)] =>
    destruct (update_fn_served sp name namespace diff c r l) as (lg3 & ->)
  end.
  cbn [snd cluster services config_maps stateful_sets Spec.replicas Spec.timer Spec.image].
  unfold ensure at 2 3 5 6. rewrite Hcm, Hsts. f_equal.
  - rewrite <- alter_lookup_Some with (v := desired_config_map old name namespace)
      by apply lookup_insert_eq.
    rewrite insert_insert_eq. by f_equal.
  - rewrite <- alter_lookup_Some with (v := desired_stateful_set old name namespace)
      by apply lookup_insert_eq.
    rewrite insert_insert_eq. by f_equal.
Qed.

(** From an empty cluster: created with the defaults, then updated to four
    replicas. *)
Lemma update_fn_converges_witness :
  config_maps (MkCluster ∅ ∅ ∅) !! ("default", cm_name_of "foo") = None ∧
  stateful_sets (MkCluster ∅ ∅ ∅) !! ("default", sts_name_of "foo") = None ∧
  cluster
    (Operator.update_fn (Spec.Build (Some 4) (Some 30) (Some "6y6en/ping-pong:latest"))
       "foo" "default" []
       (Operator.create_fn (Spec.Build None None None) "foo" "default"
          (MkWorld (MkCluster ∅ ∅ ∅) [] [] [])).2).2
  = cluster
      (Operator.create_fn (Spec.Build (Some 4) (Some 30) (Some "6y6en/ping-pong:latest"))
         "foo" "default" (MkWorld (MkCluster ∅ ∅ ∅) [] [] [])).2.
Proof.
  split; [reflexivity|]. split; [reflexivity|].
  exact (update_fn_converges (Spec.Build None None None) 4 30 "6y6en/ping-pong:latest"
           "foo" "default" [] (MkCluster ∅ ∅ ∅) [] [] eq_refl eq_refl).
Defined.

(** *** How the three manifests refer to each other *)


(** ** More on the server *)

(** [load_config] never raises and sends nothing: it leaves the loaded
    configuration in [config] and one record in the log. *)
Lemma load_config_run py_str (s : Server.State) :
  Server.load_config py_str s
  = (Ok tt,
     Server.MkState (loaded_config s) (Server.pod_prefix s) (Server.pod_number s)
       (Server.service_name s) (Server.config_file s) (Server.network s)
       (Server.sent s) (Server.log s ++ [load_record py_str s])).
Proof.
  destruct s as [c pp pn sn cf nw st lg].
  unfold Server.load_config, load_record, loaded_config.
  cbn [Server.config_file Server.config Server.pod_prefix Server.pod_number
       Server.service_name Server.network Server.sent Server.log].
  destruct cf as [v|e]; [|done]. by destruct (Server.truthy v).
Qed.

(** The [for] loop of a pass, log included. *)
Lemma ping_targets_log (l : list Z) c pp pn sn cf nw st lg :
  for_each l Server.ping_one (Server.MkState c pp pn sn cf nw st lg)
  = (Ok tt,
     Server.MkState c pp pn sn cf nw
       (st ++ ((λ i, Server.ping_url pp i sn) <$> filter (λ i, i ≠ pn) l))
       (lg ++ (ping_record (Server.MkState c pp pn sn cf nw [] [])
                 <$> filter (λ i, i ≠ pn) l))).
Proof.
  revert st lg. induction l as [|i l IH]; intros st lg.
  - simpl. by rewrite !app_nil_r.
  - cbn [for_each]. rewrite bind_run. unfold Server.ping_one at 1.
    cbn [Server.pod_number].
    destruct (decide (i = pn)) as [->|Hne].
    + rewrite IH. rewrite filter_cons_False by (intros H; by apply H). done.
    + rewrite bind_run. unfold Server.requests_get.
      cbn [Server.pod_prefix Server.service_name Server.network Server.sent
           Server.config Server.pod_number Server.config_file Server.log].
      rewrite filter_cons_True by done. rewrite !fmap_cons.
      unfold ping_record at 1.
      cbn [Server.pod_prefix Server.service_name Server.network Server.pod_number].
      destruct (nw (Server.ping_url pp i sn)) as [text|e];
        unfold Server.app_logger, modify;
        cbn [Server.pod_prefix Server.service_name Server.network Server.sent
             Server.config Server.pod_number Server.config_file Server.log];
        rewrite IH; by rewrite <- !app_assoc.
Qed.

(** A pass as a whole. *)
Lemma ping_pass_run py_str c pp pn sn cf nw st lg :
  let s := Server.MkState c pp pn sn cf nw st lg in
  let s1 := Server.MkState (loaded_config s) pp pn sn cf nw st
              (lg ++ [load_record py_str s]) in
  Server.ping_pass py_str s
  = match loaded_config s with
    | PyDict d =>
        match default PyNone (assoc_get "replicas" d) with
        | PyInt r =>
            (Ok tt,
             Server.MkState (loaded_config s) pp pn sn cf nw
               (st ++ ((λ i, Server.ping_url pp i sn) <$> peers r pn))
               ((lg ++ [load_record py_str s]) ++ (ping_record s <$> peers r pn)))
        | _ => (Raise Server.TypeError, s1)
        end
    | _ => (Raise Server.AttributeError, s1)
    end.
Proof.
  cbv zeta. unfold Server.ping_pass. rewrite bind_run, load_config_run.
  cbn [Server.pod_prefix Server.service_name Server.network Server.sent
       Server.pod_number Server.config_file Server.log].
  set (s := Server.MkState c pp pn sn cf nw st lg).
  rewrite bind_run. unfold Server.config_get at 1. cbn [Server.config].
  destruct (loaded_config s) as [| | | |d] eqn:Hcfg; try done.
  rewrite bind_run. unfold Server.config_get at 1. cbn [Server.config].
  rewrite bind_run.
  destruct (default PyNone (assoc_get "replicas" d)) as [|r| | |] eqn:Hrep;
    try done.
  cbn [Server.range0]. unfold mret, M_ret, ret. rewrite ping_targets_log.
  done.
Qed.


Lemma filter_all {A} (P : A → Prop) `{∀ x, Decision (P x)} (l : list A) :
  Forall P l → filter P l = l.
Proof.
  induction 1 as [|x l Hx Hl IH]; [done|].
  by rewrite filter_cons_True, IH.
Qed.

Lemma peers_length replicas pod_number :
  length (peers replicas pod_number)
  = Z.to_nat (if bool_decide (0 ≤ pod_number < replicas)
              then replicas - 1 else replicas).
Proof.
  unfold peers, py_range. rewrite Z.sub_0_r. case_bool_decide as Hp.
  - replace replicas with (pod_number + (replicas - pod_number)) at 1 by lia.
    rewrite seqZ_app by lia. rewrite (seqZ_cons (0 + pod_number)) by lia.
    rewrite filter_app, filter_cons_False by (intros H; apply H; lia).
    rewrite !filter_all.
    + rewrite length_app, !length_seqZ. lia.
    + apply Forall_forall. intros i Hi%elem_of_seqZ. lia.
    + apply Forall_forall. intros i Hi%elem_of_seqZ. lia.
  - rewrite filter_all; [by rewrite length_seqZ|].
    apply Forall_forall. intros i Hi%elem_of_seqZ. lia.
Qed.

(** X12.  How many GETs a pass sends.  With an integer [replicas] in the loaded
    configuration, a pod whose ordinal is below [replicas] sends
    [replicas - 1] GETs; a pod whose ordinal is not (after a scale down, say)
    sends [replicas], one to every ordinal; none when [replicas] is zero or
    negative. *)
Theorem ping_pass_count py_str (s : Server.State) (d : list (string * pyval)) (r : Z) :
  loaded_config s = PyDict d →
  assoc_get "replicas" d = Some (PyInt r) →
  length (Server.sent (Server.ping_pass py_str s).2)
  = (length (Server.sent s)
     + Z.to_nat (if bool_decide (0 ≤ Server.pod_number s < r)%Z
                 then (r - 1)%Z else r))%nat.
Proof.
  intros Hcfg Hrep. destruct s as [c pp pn sn cf nw st lg].
  rewrite ping_pass_run. rewrite Hcfg, Hrep. cbn [default from_option id snd Server.sent
    Server.pod_number].
  by rewrite length_app, length_fmap, peers_length.
Qed.

(** A pod of ordinal 5 left over after a scale down to 3 pings all three. *)
Lemma ping_pass_count_witness :
  loaded_config
    (Server.MkState (PyDict [("replicas", PyInt 3); ("timer", PyInt 30)])
       "foo-sts" 5 "foo-svc" (inr "No such file") (λ _, inr "refused") [] [])
  = PyDict [("replicas", PyInt 3); ("timer", PyInt 30)] ∧
  assoc_get "replicas" [("replicas", PyInt 3); ("timer", PyInt 30)] = Some (PyInt 3) ∧
  length
    (Server.sent
       (Server.ping_pass (λ _, "")
          (Server.MkState (PyDict [("replicas", PyInt 3); ("timer", PyInt 30)])
             "foo-sts" 5 "foo-svc" (inr "No such file") (λ _, inr "refused") [] [])).2)
  = 3%nat.
Proof.
  split; [reflexivity|]. split; [reflexivity|].
  exact (ping_pass_count (λ _, "")
           (Server.MkState (PyDict [("replicas", PyInt 3); ("timer", PyInt 30)])
              "foo-sts" 5 "foo-svc" (inr "No such file") (λ _, inr "refused") [] [])
           [("replicas", PyInt 3); ("timer", PyInt 30)] 3 eq_refl eq_refl).
Defined.

(** X13.  [GET /reload] never raises, whatever the file: it answers [reloaded],
    sends nothing, and [GET /config] then answers the loaded configuration,
    which is the file's content when it can be read and is not empty, and the
    configuration held before otherwise.  Reloading again changes nothing. *)
Theorem reload_then_config py_str (s : Server.State) :
  let s1 := (Server.reload_config py_str s).2 in
  (Server.reload_config py_str s).1 = Ok "reloaded" ∧
  Server.get_config s1 = (Ok (loaded_config s), s1) ∧
  Server.sent s1 = Server.sent s ∧
  (∀ e, Server.config_file s = inr e → loaded_config s = Server.config s) ∧
  (∀ v, Server.config_file s = inl v →
        loaded_config s = if Server.truthy v then v else Server.config s) ∧
  Server.config (Server.reload_config py_str s1).2 = Server.config s1.
Proof.
  cbv zeta. unfold Server.reload_config. rewrite bind_run, load_config_run.
  cbn [fst snd mret M_ret ret]. rewrite bind_run, load_config_run.
  cbn [fst snd mret M_ret ret Server.config]. split_and!; try done.
  - unfold loaded_config. by intros e ->.
  - unfold loaded_config. by intros v ->.
  - unfold loaded_config at 1. cbn [Server.config_file Server.config].
    unfold loaded_config. destruct (Server.config_file s) as [v|e]; [|done].
    by destruct (Server.truthy v).
Qed.

(** *** Start-up *)

Lemma rsplit1_None c s :
  Server.rsplit1 c s = None → contains_char c s = false.
Proof.
  induction s as [|a s IH]; [done|]. cbn [Server.rsplit1 contains_char].
  destruct (Server.rsplit1 c s) as [[]|]; [done|].
  case_decide as Ha; [done|]. intros _.
  rewrite bool_decide_eq_false_2 by done. by apply IH.
Qed.

Lemma rsplit1_sound c s p q :
  Server.rsplit1 c s = Some (p, q) →
  s = p +:+ String c q ∧ contains_char c q = false.
Proof.
  revert p. induction s as [|a s IH]; intros p; [done|].
  cbn [Server.rsplit1]. destruct (Server.rsplit1 c s) as [[p' q']|] eqn:Hs.
  - intros [= <- <-]. destruct (IH _ eq_refl) as [-> Hq]. done.
  - case_decide as Ha; [|done]. intros [= <- <-]. subst a.
    split; [done|]. by apply rsplit1_None.
Qed.

Lemma rsplit1_absent c s :
  contains_char c s = false → Server.rsplit1 c s = None.
Proof.
  induction s as [|a s IH]; [done|]. cbn [contains_char Server.rsplit1].
  intros [Ha Hs]%orb_false_iff. rewrite IH by done.
  apply bool_decide_eq_false in Ha. by rewrite decide_False.
Qed.

(** [rsplit] cuts at the last separator. *)
Lemma rsplit1_last c p q :
  contains_char c q = false → Server.rsplit1 c (p +:+ String c q) = Some (p, q).
Proof.
  intros Hq. induction p as [|a p IH]; simpl.
  - rewrite rsplit1_absent by done. rewrite decide_True by done. done.
  - by rewrite IH.
Qed.

Lemma contains_dash_digits x s :
  contains_char "-" (pretty_N_go x s) = contains_char "-" s.
Proof.
  revert s. induction (N.lt_wf_0 x) as [x _ IH]; intros s.
  destruct (decide (0 < x)%N) as [Hx|Hx].
  - rewrite pretty_N_go_step by done. rewrite IH by (by apply N.div_lt).
    cbn [contains_char]. rewrite bool_decide_eq_false_2; [done|].
    unfold pretty_N_char. by repeat case_match.
  - assert (x = 0%N) as -> by lia. by rewrite pretty_N_go_0.
Qed.

(** The decimal rendering of a natural number has no dash. *)
Lemma str_int_no_dash i : 0 ≤ i → contains_char "-" (str_int i) = false.
Proof.
  intros Hi. destruct i as [|p|p]; [done| |lia].
  unfold str_int, pretty, pretty_Z, pretty, pretty_positive, pretty, pretty_N.
  rewrite decide_False by done. by rewrite contains_dash_digits.
Qed.

(** [define_cluster] on the hostname of the pod of ordinal [i]. *)
Lemma define_cluster_run py_int (environ : gmap string string)
    (prefix : string) (i : Z) (s : Server.State) :
  environ !! "HOSTNAME" = Some (prefix +:+ "-" +:+ str_int i) →
  0 ≤ i →
  py_int (str_int i) = Some i →
  ∃ lg,
    Server.define_cluster py_int environ s
    = (Ok tt,
       Server.MkState (Server.config s) prefix i
         (default "" (environ !! "HEADLESS_SERVICE")) (Server.config_file s)
         (Server.network s) (Server.sent s) lg).
Proof.
  intros Hhost Hi Hint. unfold Server.define_cluster. rewrite Hhost.
  unfold Server.rsplit.
  change (prefix +:+ "-" +:+ str_int i) with (prefix +:+ String "-" (str_int i)).
  rewrite rsplit1_last by (by apply str_int_no_dash).
  cbn [lookup list_lookup]. rewrite Hint. cbv zeta. by eexists.
Qed.

(** X14.  [define_cluster] reads the pod's identity off its hostname.  For the
    hostname a StatefulSet gives its pod of ordinal [i], the name of the set,
    a dash and [i] in decimal, it takes the name of the set as prefix, dashes
    in it included, and [i] as ordinal, takes the service name from
    [HEADLESS_SERVICE] (empty when unset), and leaves the configuration and
    the record of GETs alone. *)
Theorem define_cluster_hostname py_int (environ : gmap string string)
    (prefix : string) (i : Z) (s : Server.State) :
  environ !! "HOSTNAME" = Some (prefix +:+ "-" +:+ str_int i) →
  0 ≤ i →
  py_int (str_int i) = Some i →
  ∃ s',
    Server.define_cluster py_int environ s = (Ok tt, s') ∧
    Server.pod_prefix s' = prefix ∧
    Server.pod_number s' = i ∧
    Server.service_name s' = default "" (environ !! "HEADLESS_SERVICE") ∧
    Server.config s' = Server.config s ∧
    Server.config_file s' = Server.config_file s ∧
    Server.sent s' = Server.sent s.
Proof.
  intros Hhost Hi Hint.
  destruct (define_cluster_run py_int environ prefix i s Hhost Hi Hint) as (lg & ->).
  by eexists.
Qed.

(** The pod [foo-sts-2]. *)
Lemma define_cluster_hostname_witness :
  ({[ "HOSTNAME" := "foo-sts-2"; "HEADLESS_SERVICE" := "foo-svc" ]}
     : gmap string string) !! "HOSTNAME"
  = Some ("foo-sts" +:+ "-" +:+ str_int 2) ∧
  0 ≤ 2 ∧
  (λ t : string, if decide (t = "2") then Some 2 else None) (str_int 2) = Some 2 ∧
  ∃ s',
    Server.define_cluster (λ t, if decide (t = "2") then Some 2 else None)
      {[ "HOSTNAME" := "foo-sts-2"; "HEADLESS_SERVICE" := "foo-svc" ]}
      (Server.MkState (PyDict [("replicas", PyInt 0); ("timer", PyInt 6000)])
         "" 0 "" (inr "") (λ _, inr "") [] [])
    = (Ok tt, s') ∧
    Server.pod_prefix s' = "foo-sts" ∧ Server.pod_number s' = 2 ∧
    Server.service_name s' = "foo-svc".
Proof.
  split; [vm_compute; reflexivity|]. split; [done|]. split; [reflexivity|].
  destruct (define_cluster_hostname
              (λ t, if decide (t = "2") then Some 2 else None)
              ({[ "HOSTNAME" := "foo-sts-2"; "HEADLESS_SERVICE" := "foo-svc" ]}
                 : gmap string string)
              "foo-sts" 2
              (Server.MkState (PyDict [("replicas", PyInt 0); ("timer", PyInt 6000)])
                 "" 0 "" (inr "") (λ _, inr "") [] []))
    as (s' & Hrun & Hp & Hn & Hsn & _);
    [vm_compute; reflexivity | done | reflexivity |].
  exists s'. split; [exact Hrun|]. split; [exact Hp|]. split; [exact Hn|].
  rewrite Hsn. reflexivity.
Defined.

(** X15.  How [define_cluster] fails.  Without [HOSTNAME] it raises [KeyError] and
    has assigned nothing.  With a hostname that has no dash it raises
    [IndexError], and by then it has assigned the service name and, as prefix,
    the whole hostname; the ordinal is the one held before. *)
Theorem define_cluster_no_dash py_int (environ : gmap string string)
    (hostname : string) (s : Server.State) :
  environ !! "HOSTNAME" = Some hostname →
  contains_char "-" hostname = false →
  Server.define_cluster py_int (delete "HOSTNAME" environ) s
  = (Raise (Server.KeyError "HOSTNAME"), s) ∧
  (Server.define_cluster py_int environ s).1 = Raise Server.IndexError ∧
  Server.pod_prefix (Server.define_cluster py_int environ s).2 = hostname ∧
  Server.service_name (Server.define_cluster py_int environ s).2
  = default "" (environ !! "HEADLESS_SERVICE") ∧
  Server.pod_number (Server.define_cluster py_int environ s).2 = Server.pod_number s ∧
  Server.log (Server.define_cluster py_int environ s).2 = Server.log s.
Proof.
  intros Hhost Hdash. split.
  - unfold Server.define_cluster. by rewrite lookup_delete_eq.
  - unfold Server.define_cluster. rewrite Hhost. unfold Server.rsplit.
    rewrite rsplit1_absent by done. cbn [lookup list_lookup]. done.
Qed.

(** The hostname [localhost]. *)
Lemma define_cluster_no_dash_witness :
  ({[ "HOSTNAME" := "localhost" ]} : gmap string string) !! "HOSTNAME"
  = Some "localhost" ∧
  contains_char "-" "localhost" = false ∧
  (Server.define_cluster (λ _, None) {[ "HOSTNAME" := "localhost" ]}
     (Server.MkState (PyDict [("replicas", PyInt 0); ("timer", PyInt 6000)])
        "" 0 "" (inr "") (λ _, inr "") [] [])).1
  = Raise Server.IndexError.
Proof.
  split; [vm_compute; reflexivity|]. split; [reflexivity|].
  destruct (define_cluster_no_dash (λ _, None)
              ({[ "HOSTNAME" := "localhost" ]} : gmap string string) "localhost"
              (Server.MkState (PyDict [("replicas", PyInt 0); ("timer", PyInt 6000)])
                 "" 0 "" (inr "") (λ _, inr "") [] []))
    as (_ & Hrun & _); [vm_compute; reflexivity | reflexivity |].
  exact Hrun.
Defined.

(** X16.  From the hostname to the mesh.  A pod started under the hostname of
    ordinal [k] of a StatefulSet, whose configuration gives an integer
    [replicas], sends in its first pass one GET to [<set>-<i>] for every
    ordinal [i] below [replicas] other than [k], under the service name of
    its environment when there is one, and none to its own address. *)
Theorem mesh_from_hostname py_str py_int (environ : gmap string string)
    (prefix : string) (k : Z) (s : Server.State) (d : list (string * pyval)) (r : Z) :
  environ !! "HOSTNAME" = Some (prefix +:+ "-" +:+ str_int k) →
  0 ≤ k →
  py_int (str_int k) = Some k →
  loaded_config s = PyDict d →
  assoc_get "replicas" d = Some (PyInt r) →
  ∃ s1 s2,
    Server.define_cluster py_int environ s = (Ok tt, s1) ∧
    Server.ping_pass py_str s1 = (Ok tt, s2) ∧
    Server.sent s2
    = Server.sent s ++
      ((λ i, Server.ping_url prefix i (default "" (environ !! "HEADLESS_SERVICE")))
         <$> peers r k) ∧
    Server.ping_url prefix k (default "" (environ !! "HEADLESS_SERVICE"))
      ∉ (λ i, Server.ping_url prefix i (default "" (environ !! "HEADLESS_SERVICE")))
          <$> peers r k.
Proof.
  intros Hhost Hk Hint Hcfg Hrep.
  destruct (define_cluster_run py_int environ prefix k s Hhost Hk Hint)
    as (lg & Hrun).
  eexists _, _. split; [exact Hrun|].
  rewrite ping_pass_run.
  assert (loaded_config
            (Server.MkState (Server.config s) prefix k
               (default "" (environ !! "HEADLESS_SERVICE")) (Server.config_file s)
               (Server.network s) (Server.sent s) lg) = PyDict d) as ->.
  { rewrite <- Hcfg. unfold loaded_config.
    by cbn [Server.config_file Server.config]. }
  rewrite Hrep. cbn [default from_option id]. split; [reflexivity|].
  cbn [Server.sent]. split; [done|].
  intros (i & Hi%ping_url_inj & Hin%peers_spec)%list_elem_of_fmap. lia.
Qed.

(** The pod [foo-sts-1] of three. *)
Lemma mesh_from_hostname_witness :
  ({[ "HOSTNAME" := "foo-sts-1"; "HEADLESS_SERVICE" := "foo-svc" ]}
     : gmap string string) !! "HOSTNAME"
  = Some ("foo-sts" +:+ "-" +:+ str_int 1) ∧
  0 ≤ 1 ∧
  (λ t : string, if decide (t = "1") then Some 1 else None) (str_int 1) = Some 1 ∧
  ∃ s1 s2,
    Server.define_cluster (λ t, if decide (t = "1") then Some 1 else None)
      {[ "HOSTNAME" := "foo-sts-1"; "HEADLESS_SERVICE" := "foo-svc" ]}
      (Server.MkState (PyDict [("replicas", PyInt 0); ("timer", PyInt 6000)])
         "" 0 "" (inl (PyDict [("replicas", PyInt 3); ("timer", PyInt 30)]))
         (λ _, inr "refused") [] [])
    = (Ok tt, s1) ∧
    Server.ping_pass (λ _, "") s1 = (Ok tt, s2) ∧
    Server.sent s2
    = ["http://foo-sts-0.foo-svc/ping"; "http://foo-sts-2.foo-svc/ping"].
Proof.
  split; [vm_compute; reflexivity|]. split; [done|]. split; [reflexivity|].
  destruct (mesh_from_hostname (λ _, "")
              (λ t, if decide (t = "1") then Some 1 else None)
              ({[ "HOSTNAME" := "foo-sts-1"; "HEADLESS_SERVICE" := "foo-svc" ]}
                 : gmap string string)
              "foo-sts" 1
              (Server.MkState (PyDict [("replicas", PyInt 0); ("timer", PyInt 6000)])
                 "" 0 "" (inl (PyDict [("replicas", PyInt 3); ("timer", PyInt 30)]))
                 (λ _, inr "refused") [] [])
              [("replicas", PyInt 3); ("timer", PyInt 30)] 3)
    as (s1 & s2 & H1 & H2 & Hsent & _);
    [vm_compute; reflexivity | done | reflexivity | reflexivity | reflexivity |].
  exists s1, s2. split; [exact H1|]. split; [exact H2|].
  rewrite Hsent. vm_compute. reflexivity.
Defined.
